(** * Channel messaging engine: the tRPC chat router

    A shallow embedding of [packages/server/routers/chat.ts]: the relational
    tables the router touches, the Redis last-read store, the realtime
    publish log, and the procedures of [chatRouter] together with the
    helpers [checkDeleteMessage] and [insertAttachment]. *)

From stdpp Require Import base option list sorting gmap strings.

Open Scope Z_scope.

(** ** Errors *)

(** The [code] of a [TRPCError].  A plain [Error] thrown inside a resolver
    reaches the caller as [INTERNAL_SERVER_ERROR]. *)
Inductive TRPCErrorCode :=
| BAD_REQUEST
| NOT_FOUND
| FORBIDDEN
| UNAUTHORIZED
| INTERNAL_SERVER_ERROR.

Inductive Result (A : Type) :=
| Ok (a : A)
| Err (e : TRPCErrorCode).
Arguments Ok {A} a.
Arguments Err {A} e.

#[global] Instance TRPCErrorCode_eq_dec : EqDecision TRPCErrorCode.
Proof. solve_decision. Defined.

(** ** Rows of the tables in [db/schema] *)

(** Modelled from the spec: [db/schema] is not among the sources.  The
    columns are the ones the router reads or writes; every table is a list of
    rows in storage order, [id] being the primary key of [messages], [users],
    [attachments] and [messageChannels]. *)
Record Message := {
  m_id : Z;
  m_author_id : string;
  m_content : string;
  m_channel_id : string;
  m_attachment_id : option string;
  m_reply_id : option Z;
  m_timestamp : Z;
}.

Record User := {
  u_id : string;
  u_name : string;
  u_image : option string;
}.

(** Modelled from the spec: [UploadAttachment] of [shared/schema/chat] is not
    among the sources.  [up_rest] stands for the fields that the object
    spread of [insertAttachment] copies unchanged (media kind tag, storage
    locator); width and height are optional. *)
Record UploadAttachment := {
  up_rest : string;
  up_width : option Z;
  up_height : option Z;
}.

Record Attachment := {
  a_id : string;
  a_rest : string;
  a_width : option Z;
  a_height : option Z;
}.

Record MessageChannel := {
  mc_id : string;
  mc_last_message_id : option Z;
}.

Record DirectMessageInfo := {
  dm_channel_id : string;
  dm_user_id : string;
  dm_to_user_id : string;
  dm_open : bool;
}.

Record Group := {
  g_id : Z;
  g_channel_id : string;
  g_owner_id : string;
}.

#[global] Instance Message_eq_dec : EqDecision Message.
Proof. solve_decision. Defined.
#[global] Instance User_eq_dec : EqDecision User.
Proof. solve_decision. Defined.
#[global] Instance Attachment_eq_dec : EqDecision Attachment.
Proof. solve_decision. Defined.
#[global] Instance DirectMessageInfo_eq_dec : EqDecision DirectMessageInfo.
Proof. solve_decision. Defined.

(** The relational store.  [messages_insertId] is the auto-increment counter
    of [messages]: the id the next inserted row receives. *)
Record DB := {
  messages : list Message;
  messages_insertId : Z;
  users : list User;
  attachments : list Attachment;
  messageChannels : list MessageChannel;
  directMessageInfos : list DirectMessageInfo;
  groups : list Group;
}.

(** ** Projections returned to the caller *)

(** [pick(users, ...userProfileKeys)] with
    [userProfileKeys = ["id", "name", "image"]]. *)
Record UserProfile := {
  id : string;
  name : string;
  image : option string;
}.

Definition userProfile (u : User) : UserProfile :=
  {| id := u_id u; name := u_name u; image := u_image u |}.

(** The object [send] returns: the columns of the inserted row, the joined
    [reply_message] (its [content]), [reply_user] and [author], and the
    [attachment], [is_new_dm] and [nonce] spread in afterwards. *)
Record SentMessage := {
  sm_row : Message;
  sm_reply_message : option string;
  sm_reply_user : option UserProfile;
  sm_author : UserProfile;
  sm_attachment : option Attachment;
  sm_is_new_dm : bool;
  sm_nonce : option Z;
}.

(** One row of the [messages] query: all four joins are left joins. *)
Record HydratedMessage := {
  hm_row : Message;
  hm_author : option UserProfile;
  hm_attachment : option Attachment;
  hm_reply_message : option string;
  hm_reply_user : option UserProfile;
}.

(** ** Realtime fanout and the bot notifier *)

(** A call [channels.<scope>.<event>.publish(addresses, payload)]. *)
Inductive Event :=
| open_dm (to : list string) (channel : string) (user : UserProfile)
    (unread_messages : Z)
| message_sent (to : list string) (payload : SentMessage)
| message_updated (to : list string) (message : Z) (content : string)
    (channel_id : string)
| message_deleted (to : list string) (message : Z) (channel_id : string)
| typing (to : list string) (user : UserProfile).

(** The argument of [onReceiveMessage]. *)
Record BotMessage := {
  bot_content : string;
  bot_channel_id : string;
  bot_user_name : string;
}.

(** ** The world a request runs in *)

(** [redis] is the last-read store, keyed by (channel, user); [ably] and
    [inworld] log, oldest first, the publish calls and the notifier calls
    issued so far. *)
Record World := {
  db : DB;
  redis : gmap (string * string) Z;
  ably : list Event;
  inworld : list BotMessage;
}.

Definition with_db (d : DB) (w : World) : World :=
  {| db := d; redis := redis w; ably := ably w; inworld := inworld w |}.

(** ** Resolvers as state transformers that may throw *)

Definition M (A : Type) : Type := World -> World * Result A.

Definition ret {A} (a : A) : M A := fun w => (w, Ok a).

Definition throw {A} (e : TRPCErrorCode) : M A := fun w => (w, Err e).

Definition bind {A B} (m : M A) (k : A -> M B) : M B :=
  fun w =>
    match m w with
    | (w', Ok a) => k a w'
    | (w', Err e) => (w', Err e)
    end.

Notation "'do' x <- m ; k" := (bind m (fun x => k))
  (at level 10, x name, m at level 100, k at level 200).
Notation "'run' m ; k" := (bind m (fun _ => k))
  (at level 10, m at level 100, k at level 200).

Definition gets {A} (f : DB -> A) : M A := fun w => (w, Ok (f (db w))).

Definition modify_db (f : DB -> DB) : M unit :=
  fun w => (with_db (f (db w)) w, Ok tt).

(** [db.transaction(async () => ..)] as the router calls it: the callback
    takes no transaction handle and issues every statement through the
    global [db], outside the transaction that was opened.  Nothing the
    callback wrote is rolled back when it throws: the writes stay and the
    error is rethrown. *)
Definition transaction {A} (f : M A) : M A :=
  fun w =>
    match f w with
    | (w', Ok a) => (w', Ok a)
    | (w', Err e) => (w', Err e)
    end.

(** [channels.*.publish]: the call is recorded; the transport is an external
    collaborator and its delivery is not part of the model. *)
Definition publish (e : Event) : M unit :=
  fun w =>
    ({| db := db w; redis := redis w; ably := ably w ++ [e];
        inworld := inworld w |}, Ok tt).

(** ** The last-read tracker ([../redis/last-read]) *)

(** Modelled from the spec: [getLastRead] is not among the sources.  It
    returns the cursor stored for (channel, user), absent if never set. *)
Definition getLastRead (channel_id user_id : string) : M (option Z) :=
  fun w => (w, Ok (redis w !! (channel_id, user_id))).

(** Modelled from the spec: [setLastRead] is not among the sources.  It
    stores the cursor for (channel, user); the last writer wins. *)
Definition setLastRead (channel_id user_id : string) (value : Z) : M unit :=
  fun w =>
    ({| db := db w; redis := <[(channel_id, user_id) := value]> (redis w);
        ably := ably w; inworld := inworld w |}, Ok tt).

(** ** External collaborators *)

(** The session of a [protectedProcedure]: the resolvers only read
    [ctx.session.user.id]. *)
Record Session := {
  session_user_id : string;
}.

(** What [checkChannelPermissions] resolves to: the channel kind with the
    row that describes it. *)
Inductive ChannelPermission :=
| dm (data : DirectMessageInfo)
| group (data : Group).

(** The imports whose code is not among the sources, taken as parameters.
    [checkChannelPermissions] reads the store and resolves or throws;
    [contentSchema] is the zod schema of a message content, yielding the
    parsed content or a validation failure; [notifier_resolves] tells whether
    the promise of [onReceiveMessage] resolves ([true]) or rejects for the
    given argument.  The procedure [generateText] only forwards its input to
    the text-generation service and touches neither the store nor a topic; it
    is left out. *)
Class Collaborators := {
  checkChannelPermissions : string -> Session -> DB -> Result ChannelPermission;
  contentSchema : string -> option string;
  notifier_resolves : BotMessage -> bool;
}.

(** ** Queries and statements on the store *)

Definition not_null {A} (o : option A) : bool :=
  match o with Some _ => true | None => false end.

(** Lookups by primary key: the first row with the given [id]. *)
Definition find_message (i : Z) (d : DB) : option Message :=
  head (filter (fun m => m_id m = i) (messages d)).

Definition find_user (i : string) (d : DB) : option User :=
  head (filter (fun u => u_id u = i) (users d)).

Definition find_attachment (i : string) (d : DB) : option Attachment :=
  head (filter (fun a => a_id a = i) (attachments d)).

(** [leftJoin(reply_message, eq(reply_message.id, messages.reply_id))]: a
    null [reply_id] matches no row. *)
Definition reply_message_of (m : Message) (d : DB) : option Message :=
  match m_reply_id m with
  | Some r => find_message r d
  | None => None
  end.

(** [leftJoin(reply_user, eq(reply_message.author_id, reply_user.id))]. *)
Definition reply_user_of (m : Message) (d : DB) : option User :=
  match reply_message_of m d with
  | Some r => find_user (m_author_id r) d
  | None => None
  end.

(** Writing one table and leaving the others as they are. *)
Definition with_messages (l : list Message) (next : Z) (d : DB) : DB :=
  {| messages := l; messages_insertId := next; users := users d;
     attachments := attachments d; messageChannels := messageChannels d;
     directMessageInfos := directMessageInfos d; groups := groups d |}.

Definition with_attachments (l : list Attachment) (d : DB) : DB :=
  {| messages := messages d; messages_insertId := messages_insertId d;
     users := users d; attachments := l;
     messageChannels := messageChannels d;
     directMessageInfos := directMessageInfos d; groups := groups d |}.

Definition with_messageChannels (l : list MessageChannel) (d : DB) : DB :=
  {| messages := messages d; messages_insertId := messages_insertId d;
     users := users d; attachments := attachments d; messageChannels := l;
     directMessageInfos := directMessageInfos d; groups := groups d |}.

Definition with_directMessageInfos (l : list DirectMessageInfo) (d : DB) : DB :=
  {| messages := messages d; messages_insertId := messages_insertId d;
     users := users d; attachments := attachments d;
     messageChannels := messageChannels d; directMessageInfos := l;
     groups := groups d |}.

(** [db.insert(messages).values(..)]: the store assigns the id from the
    auto-increment counter and the timestamp from its clock, and reports the
    id as [insertId]. *)
Definition insert_message (now : Z) (author_id content channel_id : string)
    (attachment_id : option string) (reply_id : option Z) : M Z :=
  fun w =>
    let d := db w in
    let row := {| m_id := messages_insertId d; m_author_id := author_id;
                  m_content := content; m_channel_id := channel_id;
                  m_attachment_id := attachment_id; m_reply_id := reply_id;
                  m_timestamp := now |} in
    (with_db (with_messages (messages d ++ [row]) (messages_insertId d + 1) d) w,
     Ok (messages_insertId d)).

(** [db.insert(attachments).values(..)]. *)
Definition insert_attachment_row (a : Attachment) : M unit :=
  modify_db (fun d => with_attachments (attachments d ++ [a]) d).

(** The select of [send] after the insert: the row with the new id, inner
    joined with its author and left joined with the replied-to message and
    that message's author. *)
Definition select_sent (message_id : Z) (d : DB)
  : list (Message * UserProfile * option string * option UserProfile) :=
  flat_map (fun m =>
    match find_user (m_author_id m) d with
    | Some u =>
        [(m, userProfile u, m_content <$> reply_message_of m d,
          userProfile <$> reply_user_of m d)]
    | None => []
    end) (filter (fun m => m_id m = message_id) (messages d)).

(** Modelled from the spec: [requireOne] of [db/utils] is not among the
    sources.  It returns the row of a one-row result and throws when the
    result is empty. *)
Definition requireOne {A} (res : list A) : M A :=
  match res with
  | r :: _ => ret r
  | [] => throw INTERNAL_SERVER_ERROR
  end.

Definition point_at (channel : string) (message_id : Z) (c : MessageChannel)
  : MessageChannel :=
  if decide (mc_id c = channel)
  then {| mc_id := mc_id c; mc_last_message_id := Some message_id |}
  else c.

(** [db.update(messageChannels).set({ last_message_id }).where(eq(id, ..))]. *)
Definition set_last_message (channel : string) (message_id : Z) : M unit :=
  modify_db (fun d =>
    with_messageChannels (point_at channel message_id <$> messageChannels d) d).

Definition dm_closed_in (channel : string) (i : DirectMessageInfo) : Prop :=
  dm_channel_id i = channel /\ dm_open i = false.

#[global] Instance dm_closed_in_dec channel i : Decision (dm_closed_in channel i).
Proof. unfold dm_closed_in. apply _. Defined.

Definition set_open (channel : string) (i : DirectMessageInfo)
  : DirectMessageInfo :=
  if decide (dm_closed_in channel i)
  then {| dm_channel_id := dm_channel_id i; dm_user_id := dm_user_id i;
          dm_to_user_id := dm_to_user_id i; dm_open := true |}
  else i.

(** [db.update(directMessageInfos).set({ open: true })
      .where(and(eq(channel_id, ..), eq(open, false)))], resolving to
    [rowsAffected]: the number of rows the condition matched. *)
Definition open_direct_message (channel : string) : M Z :=
  fun w =>
    let d := db w in
    (with_db (with_directMessageInfos
                (set_open channel <$> directMessageInfos d) d) w,
     Ok (Z.of_nat (length (filter (dm_closed_in channel)
                             (directMessageInfos d))))).

Definition update_where (message_id : Z) (author_id channel_id : string)
    (m : Message) : Prop :=
  m_id m = message_id /\ m_author_id m = author_id /\ m_channel_id m = channel_id.

#[global] Instance update_where_dec i a c m : Decision (update_where i a c m).
Proof. unfold update_where. apply _. Defined.

Definition set_content (content : string) (m : Message) : Message :=
  {| m_id := m_id m; m_author_id := m_author_id m; m_content := content;
     m_channel_id := m_channel_id m; m_attachment_id := m_attachment_id m;
     m_reply_id := m_reply_id m; m_timestamp := m_timestamp m |}.

(** [db.update(messages).set({ content }).where(and(eq(id, ..),
      eq(author_id, ..), eq(channel_id, ..)))], resolving to [rowsAffected]:
    the number of rows the condition matched. *)
Definition update_content (message_id : Z) (author_id channel_id content : string)
  : M Z :=
  fun w =>
    let d := db w in
    (with_db (with_messages
                ((fun m => if decide (update_where message_id author_id channel_id m)
                           then set_content content m else m) <$> messages d)
                (messages_insertId d) d) w,
     Ok (Z.of_nat (length (filter (update_where message_id author_id channel_id)
                             (messages d))))).

(** [db.delete(messages).where(eq(messages.id, ..))]. *)
Definition delete_message (message_id : Z) : M unit :=
  modify_db (fun d =>
    with_messages (filter (fun m => m_id m <> message_id) (messages d))
      (messages_insertId d) d).

(** ** The query of [messages] *)

Inductive CursorType := after | before.

#[global] Instance CursorType_eq_dec : EqDecision CursorType.
Proof. solve_decision. Defined.

(** The two optional comparisons of the [where]: each applies only when a
    cursor is given and the cursor type is the one it names. *)
Definition cursor_cond (cursorType : CursorType) (cursor : option Z)
    (m : Message) : Prop :=
  match cursor, cursorType with
  | Some c, after => c < m_timestamp m
  | Some c, before => m_timestamp m < c
  | None, _ => True
  end.

#[global] Instance cursor_cond_dec t c m : Decision (cursor_cond t c m).
Proof. unfold cursor_cond. destruct c, t; apply _. Defined.

Definition messages_where (channelId : string) (cursorType : CursorType)
    (cursor : option Z) (r : HydratedMessage) : Prop :=
  m_channel_id (hm_row r) = channelId /\ cursor_cond cursorType cursor (hm_row r).

#[global] Instance messages_where_dec c t k r : Decision (messages_where c t k r).
Proof. unfold messages_where. apply _. Defined.

(** The row of the query for one message, after the four left joins. *)
Definition hydrate (d : DB) (m : Message) : HydratedMessage :=
  {| hm_row := m;
     hm_author := userProfile <$> find_user (m_author_id m) d;
     hm_attachment :=
       match m_attachment_id m with
       | Some a => find_attachment a d
       | None => None
       end;
     hm_reply_message := m_content <$> reply_message_of m d;
     hm_reply_user := userProfile <$> reply_user_of m d |}.

(** [orderBy(desc(messages.timestamp))]: [newer_first a b] when [a] may stand
    before [b]. *)
Definition newer_first (a b : HydratedMessage) : Prop :=
  m_timestamp (hm_row b) <= m_timestamp (hm_row a).

#[global] Instance newer_first_dec a b : Decision (newer_first a b).
Proof. unfold newer_first. apply _. Defined.

(** [.limit(count)]: the query builder puts a LIMIT into the statement only
    for a count other than 0; with 0 the statement has none and every row is
    returned. *)
Definition limit {A} (count : Z) (rows : list A) : list A :=
  if count =? 0 then rows else take (Z.to_nat count) rows.

(** from / joins / where / orderBy / limit, in the order the store evaluates
    them. *)
Definition select_messages (channelId : string) (cursorType : CursorType)
    (cursor : option Z) (count : Z) (d : DB) : list HydratedMessage :=
  limit count
    (merge_sort newer_first
       (filter (messages_where channelId cursorType cursor)
          (hydrate d <$> messages d))).

(** ** Inputs of the procedures, as the client sends them *)

Record SendInput := {
  s_channelId : string;
  s_content : string;
  s_attachment : option UploadAttachment;
  s_reply : option Z;
  s_nonce : option Z;
}.

Record MessagesInput := {
  q_channelId : string;
  q_count : option Z;
  q_cursorType : option CursorType;
  q_cursor : option Z;
}.

Record UpdateInput := {
  e_messageId : Z;
  e_channelId : string;
  e_content : string;
}.

(** ** The router *)

Module chatRouter.
Section procedures.
Context `{Collaborators}.

(** [onReceiveMessage] of [../inworld]: the call is recorded, and its
    promise resolves or rejects as the collaborator decides. *)
Definition onReceiveMessage (b : BotMessage) : M unit :=
  fun w =>
    ({| db := db w; redis := redis w; ably := ably w;
        inworld := inworld w ++ [b] |},
     if notifier_resolves b then Ok tt else Err INTERNAL_SERVER_ERROR).

Definition insertAttachment (createId : string)
    (attachment : option UploadAttachment) : M (option Attachment) :=
  match attachment with
  | None => ret None
  | Some attachment =>
      let values := {| a_id := createId; a_rest := up_rest attachment;
                       a_width := up_width attachment;
                       a_height := up_height attachment |} in
      run insert_attachment_row values;
      ret (Some values)
  end.

Definition checkDeleteMessage (messageId : Z) (user : string) : M string :=
  do message <- gets (find_message messageId);
  match message with
  | None => throw NOT_FOUND
  | Some message =>
      if decide (m_author_id message = user)
      then ret (m_channel_id message)
      else
        do group_rows <- gets (fun d => take 1 (groups d));
        match group_rows with
        | g :: _ =>
            if decide (g_owner_id g = user)
            then ret (m_channel_id message)
            else throw BAD_REQUEST
        | [] => throw BAD_REQUEST
        end
  end.

(** The zod input of [send]: [contentSchema] on the content, then the
    refinement "Message is empty". *)
Definition send_input (raw : SendInput) : M SendInput :=
  match contentSchema (s_content raw) with
  | None => throw BAD_REQUEST
  | Some content =>
      if negb (String.length content =? 0)%nat || not_null (s_attachment raw)
      then ret {| s_channelId := s_channelId raw; s_content := content;
                  s_attachment := s_attachment raw; s_reply := s_reply raw;
                  s_nonce := s_nonce raw |}
      else throw BAD_REQUEST
  end.

(** The body of [db.transaction] in [send]. *)
Definition send_transaction (session : Session) (now : Z) (createId : string)
    (perm : ChannelPermission) (input : SendInput) : M SentMessage :=
  do attachment <- insertAttachment createId (s_attachment input);
  do message_id <-
    insert_message now (session_user_id session) (s_content input)
      (s_channelId input) (a_id <$> attachment) (s_reply input);
  do selected <- gets (select_sent message_id);
  do message <- requireOne selected;
  let '(row, author, reply_message, reply_user) := message in
  run set_last_message (m_channel_id row) (m_id row);
  do is_new_dm <-
    match perm with
    | dm _ =>
        do rowsAffected <- open_direct_message (s_channelId input);
        ret (negb (rowsAffected =? 0))
    | group _ => ret false
    end;
  ret {| sm_row := row; sm_reply_message := reply_message;
         sm_reply_user := reply_user; sm_author := author;
         sm_attachment := attachment; sm_is_new_dm := is_new_dm;
         sm_nonce := s_nonce input |}.

Definition send (session : Session) (now : Z) (createId : string)
    (raw : SendInput) : M SentMessage :=
  do input <- send_input raw;
  do perm <- (fun w => (w, checkChannelPermissions (s_channelId input)
                             session (db w)));
  do message <- transaction (send_transaction session now createId perm input);
  run match perm with
      | dm data =>
          if sm_is_new_dm message
          then publish (open_dm [dm_to_user_id data] (dm_channel_id data)
                          (sm_author message) 1)
          else ret tt
      | group _ => ret tt
      end;
  run publish (message_sent [s_channelId input] message);
  run setLastRead (s_channelId input) (session_user_id session)
        (m_timestamp (sm_row message));
  run (if String.prefix "@Shark" (s_content input)
       then onReceiveMessage
              {| bot_content := s_content input;
                 bot_channel_id := s_channelId input;
                 bot_user_name := name (sm_author message) |}
       else ret tt);
  ret message.

(** The zod input of [update]: [contentSchema] alone. *)
Definition update_input (raw : UpdateInput) : M UpdateInput :=
  match contentSchema (e_content raw) with
  | None => throw BAD_REQUEST
  | Some content =>
      ret {| e_messageId := e_messageId raw; e_channelId := e_channelId raw;
             e_content := content |}
  end.

Definition update (session : Session) (raw : UpdateInput) : M unit :=
  do input <- update_input raw;
  do rowsAffected <-
    update_content (e_messageId input) (session_user_id session)
      (e_channelId input) (e_content input);
  if rowsAffected =? 0
  then throw BAD_REQUEST
  else publish (message_updated [e_channelId input] (e_messageId input)
                  (e_content input) (e_channelId input)).

Definition delete (session : Session) (messageId : Z) : M unit :=
  do channel_id <- checkDeleteMessage messageId (session_user_id session);
  run delete_message messageId;
  publish (message_deleted [channel_id] messageId channel_id).

Definition read (session : Session) (now : Z) (channelId : string) : M unit :=
  setLastRead channelId (session_user_id session) now.

Definition checkout (session : Session) (now : Z) (channelId : string)
  : M (option Z) :=
  do old <- getLastRead channelId (session_user_id session);
  run setLastRead channelId (session_user_id session) now;
  ret old.

Definition type (session : Session) (channelId : string) : M unit :=
  do user <- gets (find_user (session_user_id session));
  match user with
  | None => throw BAD_REQUEST
  | Some user => publish (typing [channelId] (userProfile user))
  end.

(** The zod input of [messages]: [count] is a number in [0, 50] defaulting
    to 50, [cursorType] defaults to ["before"]; [q_cursor] holds the instant
    the datetime string denotes. *)
Definition messages_input (raw : MessagesInput)
  : M (string * Z * CursorType * option Z) :=
  let count := default 50 (q_count raw) in
  if (0 <=? count) && (count <=? 50)
  then ret (q_channelId raw, count, default before (q_cursorType raw),
            q_cursor raw)
  else throw BAD_REQUEST.

Definition messages (session : Session) (raw : MessagesInput)
  : M (list HydratedMessage) :=
  do input <- messages_input raw;
  let '(channelId, input_count, cursorType, cursor) := input in
  run (fun w => (w, checkChannelPermissions channelId session (db w)));
  let count := Z.min input_count 50 in
  gets (select_messages channelId cursorType cursor count).

End procedures.
End chatRouter.

(** ** Requests and traces *)

(** One call of a procedure of the router. *)
Inductive Request :=
| Send (session : Session) (now : Z) (createId : string) (raw : SendInput)
| Messages (session : Session) (raw : MessagesInput)
| Update (session : Session) (raw : UpdateInput)
| Delete (session : Session) (messageId : Z)
| Read (session : Session) (now : Z) (channelId : string)
| Checkout (session : Session) (now : Z) (channelId : string)
| Typing (session : Session) (channelId : string).

(** The world after a request has been served, whatever it answered. *)
Definition step `{Collaborators} (r : Request) (w : World) : World :=
  match r with
  | Send s now createId raw => (chatRouter.send s now createId raw w).1
  | Messages s raw => (chatRouter.messages s raw w).1
  | Update s raw => (chatRouter.update s raw w).1
  | Delete s i => (chatRouter.delete s i w).1
  | Read s now c => (chatRouter.read s now c w).1
  | Checkout s now c => (chatRouter.checkout s now c w).1
  | Typing s c => (chatRouter.type s c w).1
  end.

(** The publish calls a request issued: the log only grows at its end. *)
Definition published `{Collaborators} (r : Request) (w : World) : list Event :=
  drop (length (ably w)) (ably (step r w)).

Definition is_open_dm (e : Event) : bool :=
  match e with open_dm _ _ _ _ => true | _ => false end.

(** Whether the request is a [send] into [channel] that published a
    "channel opened" event. *)
Definition announces_open `{Collaborators} (channel : string) (r : Request)
    (w : World) : bool :=
  match r with
  | Send _ _ _ raw =>
      bool_decide (s_channelId raw = channel)
      && existsb is_open_dm (published r w)
  | _ => false
  end.

(** How many requests of a trace announced the opening of [channel]. *)
Fixpoint announcements `{Collaborators} (channel : string) (reqs : list Request)
    (w : World) : nat :=
  match reqs with
  | [] => 0%nat
  | r :: reqs =>
      ((if announces_open channel r w then 1 else 0)
       + announcements channel reqs (step r w))%nat
  end.

(** ** Predicates on the store *)

(** Ids are assigned from the counter, so every stored id is below it. *)
Definition messages_wf (d : DB) : Prop :=
  Forall (fun m => m_id m < messages_insertId d) (messages d).

(** No row of the direct-message channel is still closed. *)
Definition channel_open (channel : string) (d : DB) : Prop :=
  Forall (fun i => ~ dm_closed_in channel i) (directMessageInfos d).

(** The identity owns the group whose channel holds the message. *)
Definition owns_channel_of (d : DB) (m : Message) (user : string) : Prop :=
  Exists (fun g => g_channel_id g = m_channel_id m /\ g_owner_id g = user)
    (groups d).

(** ** A small deployment used in the examples *)

Definition demo_permissions (channelId : string) (s : Session) (d : DB)
  : Result ChannelPermission :=
  match head (filter (fun i => dm_channel_id i = channelId
                               /\ dm_user_id i = session_user_id s)
                (directMessageInfos d)) with
  | Some i => Ok (dm i)
  | None =>
      match head (filter (fun g => g_channel_id g = channelId) (groups d)) with
      | Some g => Ok (group g)
      | None => Err NOT_FOUND
      end
  end.

Definition demo (notifier_up : bool) : Collaborators :=
  {| checkChannelPermissions := demo_permissions;
     contentSchema := Some;
     notifier_resolves := fun _ => notifier_up |}.

Definition alice : Session := {| session_user_id := "alice" |}.
Definition bob : Session := {| session_user_id := "bob" |}.
Definition carol : Session := {| session_user_id := "carol" |}.

Definition message (i : Z) (author content channel : string)
    (reply : option Z) (t : Z) : Message :=
  {| m_id := i; m_author_id := author; m_content := content;
     m_channel_id := channel; m_attachment_id := None; m_reply_id := reply;
     m_timestamp := t |}.

(** Two groups (the first owned by alice, the second by bob), one unopened
    direct-message channel between alice and bob, and four messages; the
    author of message 4 ("dave") has no user row and message 3 replies to a
    message that is gone. *)
Definition demo_db : DB :=
  {| messages :=
       [message 1 "alice" "hi" "g1" None 10;
        message 2 "carol" "hello" "g2" None 20;
        message 3 "bob" "re" "g2" (Some 9) 30;
        message 4 "dave" "bye" "g2" None 40];
     messages_insertId := 5;
     users :=
       [{| u_id := "alice"; u_name := "Alice"; u_image := None |};
        {| u_id := "bob"; u_name := "Bob"; u_image := None |};
        {| u_id := "carol"; u_name := "Carol"; u_image := None |}];
     attachments := [];
     messageChannels :=
       [{| mc_id := "g1"; mc_last_message_id := Some 1 |};
        {| mc_id := "g2"; mc_last_message_id := Some 4 |};
        {| mc_id := "d1"; mc_last_message_id := None |}];
     directMessageInfos :=
       [{| dm_channel_id := "d1"; dm_user_id := "alice";
           dm_to_user_id := "bob"; dm_open := false |};
        {| dm_channel_id := "d1"; dm_user_id := "bob";
           dm_to_user_id := "alice"; dm_open := false |}];
     groups :=
       [{| g_id := 1; g_channel_id := "g1"; g_owner_id := "alice" |};
        {| g_id := 2; g_channel_id := "g2"; g_owner_id := "bob" |}] |}.

Definition demo_world : World :=
  {| db := demo_db; redis := {[ ("g1", "alice") := 5 ]}; ably := [];
     inworld := [] |}.

(** ** The specification's wording of three claims

    Each predicate states, at one call, what the specification says of it;
    the router is then compared with it. *)

(** [delete]: NotFound for a missing message; the author or the owner of the
    owning group deletes the row; anyone else gets Forbidden and nothing is
    deleted. *)
Definition delete_claim (session : Session) (messageId : Z)
    (w : World) : Prop :=
  let out := chatRouter.delete session messageId w in
  match find_message messageId (db w) with
  | None => out.2 = Err NOT_FOUND
  | Some m =>
      (m_author_id m = session_user_id session
       \/ owns_channel_of (db w) m (session_user_id session) ->
       out.2 = Ok tt
       /\ messages (db out.1)
          = filter (fun m => m_id m <> messageId) (messages (db w)))
      /\ (~ (m_author_id m = session_user_id session
             \/ owns_channel_of (db w) m (session_user_id session)) ->
          out.2 = Err FORBIDDEN /\ messages (db out.1) = messages (db w))
  end.

(** [update]: when no row has the id, the channel and the caller as author,
    the call fails with Forbidden and publishes nothing. *)
Definition update_claim `{Collaborators} (session : Session) (raw : UpdateInput)
    (w : World) : Prop :=
  forall content,
    contentSchema (e_content raw) = Some content ->
    (forall m, m ∈ messages (db w) -> m_id m = e_messageId raw ->
       m_channel_id m <> e_channelId raw
       \/ m_author_id m <> session_user_id session) ->
    let out := chatRouter.update session raw w in
    out.2 = Err FORBIDDEN /\ ably out.1 = ably w.

(** [send]: once the transaction has committed a message whose content
    triggers the bot, the notifier is called with content, channel and author
    name, and the caller receives the message even if the notifier throws. *)
Definition notifier_claim `{Collaborators} (session : Session) (now : Z)
    (createId : string) (raw : SendInput) (w : World) : Prop :=
  forall input perm w1 message,
    chatRouter.send_input raw w = (w, Ok input) ->
    checkChannelPermissions (s_channelId input) session (db w) = Ok perm ->
    transaction (chatRouter.send_transaction session now createId perm input) w
      = (w1, Ok message) ->
    String.prefix "@Shark" (s_content input) = true ->
    let out := chatRouter.send session now createId raw w in
    inworld out.1
      = inworld w ++ [{| bot_content := s_content input;
                         bot_channel_id := s_channelId input;
                         bot_user_name := name (sm_author message) |}]
    /\ out.2 = Ok message.

(** The world after a trace of requests, served one after the other. *)
Definition serve `{Collaborators} (reqs : list Request) (w : World) : World :=
  foldl (fun w r => step r w) w reqs.

(** A row of [directMessageInfos] before and after a request: unchanged, or
    opened from closed. *)
Definition kept_or_opened (i i' : DirectMessageInfo) : Prop :=
  i' = i
  \/ (dm_open i = false
      /\ i' = {| dm_channel_id := dm_channel_id i; dm_user_id := dm_user_id i;
                 dm_to_user_id := dm_to_user_id i; dm_open := true |}).

(** ** What a committed [send] writes *)

(** The attachment row [insertAttachment] builds from a descriptor. *)
Definition bound_attachment (createId : string) (up : UploadAttachment)
  : Attachment :=
  {| a_id := createId; a_rest := up_rest up; a_width := up_width up;
     a_height := up_height up |}.

(** The message row the store holds after the insert of [send]. *)
Definition inserted_row (session : Session) (now : Z) (createId : string)
    (input : SendInput) (d : DB) : Message :=
  {| m_id := messages_insertId d;
     m_author_id := session_user_id session;
     m_content := s_content input;
     m_channel_id := s_channelId input;
     m_attachment_id := a_id <$> (bound_attachment createId <$> s_attachment input);
     m_reply_id := s_reply input;
     m_timestamp := now |}.

(** The store after the two inserts of the transaction. *)
Definition store_after_inserts (session : Session) (now : Z)
    (createId : string) (input : SendInput) (d : DB) : DB :=
  with_messages (messages d ++ [inserted_row session now createId input d])
    (messages_insertId d + 1)
    (with_attachments
       (attachments d
        ++ option_list (bound_attachment createId <$> s_attachment input)) d).

(** The store after the whole transaction. *)
Definition store_after_send (perm : ChannelPermission) (session : Session)
    (now : Z) (createId : string) (input : SendInput) (d : DB) : DB :=
  let d1 := store_after_inserts session now createId input d in
  let d2 := with_messageChannels
              (point_at (s_channelId input) (messages_insertId d)
                 <$> messageChannels d1) d1 in
  match perm with
  | dm _ =>
      with_directMessageInfos
        (set_open (s_channelId input) <$> directMessageInfos d2) d2
  | group _ => d2
  end.

(** Whether the conditional update of the open flag matched a row. *)
Definition opens_dm (perm : ChannelPermission) (channel : string) (d : DB)
  : bool :=
  match perm with
  | dm _ =>
      negb (Z.of_nat (length (filter (dm_closed_in channel)
                                (directMessageInfos d))) =? 0)
  | group _ => false
  end.

(** The object the transaction resolves to when the author is [u]. *)
Definition sent_message (perm : ChannelPermission) (session : Session)
    (now : Z) (createId : string) (input : SendInput) (d : DB) (u : User)
  : SentMessage :=
  let d1 := store_after_inserts session now createId input d in
  let row := inserted_row session now createId input d in
  {| sm_row := row;
     sm_reply_message := m_content <$> reply_message_of row d1;
     sm_reply_user := userProfile <$> reply_user_of row d1;
     sm_author := userProfile u;
     sm_attachment := bound_attachment createId <$> s_attachment input;
     sm_is_new_dm := opens_dm perm (s_channelId input) d;
     sm_nonce := s_nonce input |}.

(** The three writes of a [send] that ran to the end of its transaction,
    read off the store before ([d]) and after ([d']): one message row
    appended, carrying the fresh id and naming the attachment; one attachment
    row appended exactly when a descriptor was supplied; and the last-message
    pointer of the channel set to the fresh id. *)
Definition send_effects (session : Session) (now : Z) (createId : string)
    (input : SendInput) (d d' : DB) : Prop :=
  (exists row,
     messages d' = messages d ++ [row]
     /\ m_id row = messages_insertId d
     /\ m_author_id row = session_user_id session
     /\ m_content row = s_content input
     /\ m_channel_id row = s_channelId input
     /\ m_attachment_id row
        = a_id <$> (bound_attachment createId <$> s_attachment input)
     /\ m_reply_id row = s_reply input
     /\ m_timestamp row = now)
  /\ match s_attachment input with
     | Some up => attachments d' = attachments d ++ [bound_attachment createId up]
     | None => attachments d' = attachments d
     end
  /\ messageChannels d'
     = point_at (s_channelId input) (messages_insertId d) <$> messageChannels d
  /\ Forall (fun c => mc_id c = s_channelId input ->
                      mc_last_message_id c = Some (messages_insertId d))
       (messageChannels d').

(** ** Invariants of the store *)

(** No two stored messages share an id. *)
Definition ids_unique (d : DB) : Prop := NoDup (m_id <$> messages d).

(** A stored message without text carries an attachment: what the
    refinement "Message is empty" of [send] asks of its input. *)
Definition content_ok (d : DB) : Prop :=
  Forall (fun m => m_content m = "" -> is_Some (m_attachment_id m))
    (messages d).

Definition is_update (r : Request) : bool :=
  match r with Update _ _ => true | _ => false end.

(** The events a request may publish: a [send] publishes "channel opened"
    and "message sent" (the latter to the topic of its channel), an [update]
    "message updated" for its message and channel, a [delete] "message
    deleted" for its message, [type] "typing" for its channel; [messages],
    [read] and [checkout] publish nothing. *)
Definition event_fits (r : Request) (e : Event) : Prop :=
  match r, e with
  | Send _ _ _ raw, message_sent to _ => to = [s_channelId raw]
  | Send _ _ _ raw, open_dm _ _ _ _ => True
  | Update _ raw, message_updated to i _ c =>
      to = [e_channelId raw] /\ i = e_messageId raw /\ c = e_channelId raw
  | Delete _ i, message_deleted to j c => to = [c] /\ j = i
  | Typing _ c, typing to _ => to = [c]
  | _, _ => False
  end.

Definition is_send (r : Request) : bool :=
  match r with Send _ _ _ _ => true | _ => false end.

(** ** Basic facts about the monad and the store *)

Lemma with_db_same (w : World) : with_db (db w) w = w.
Proof. by destruct w. Qed.

Lemma fmap_unmatched {A} (P : A -> Prop) `{!forall x, Decision (P x)}
    (f : A -> A) (l : list A) :
  Forall (fun x => ~ P x) l ->
  (fun x => if decide (P x) then f x else x) <$> l = l.
Proof.
  induction 1 as [|x l Hx _ IH]; [done|].
  rewrite fmap_cons, IH. by rewrite decide_False.
Qed.

Lemma filter_unmatched {A} (P : A -> Prop) `{!forall x, Decision (P x)}
    (l : list A) :
  Forall (fun x => ~ P x) l -> filter P l = [].
Proof.
  induction 1 as [|x l Hx _ IH]; [done|].
  by rewrite filter_cons_False.
Qed.

Lemma find_user_absent (i : string) (d : DB) :
  (forall u, u ∈ users d -> u_id u <> i) -> find_user i d = None.
Proof.
  intros Hi. unfold find_user. rewrite filter_unmatched; [done|].
  apply Forall_forall. intros u Hu. by apply Hi.
Qed.

Lemma with_messages_same (d : DB) :
  with_messages (messages d) (messages_insertId d) d = d.
Proof. by destruct d. Qed.

(** ** The last-read cursor *)

(** C8: [checkout] answers with the cursor stored before the call (absent if
    none was), and stores the current time for (channel, user), so that a
    following [getLastRead] returns it; the store itself is untouched. *)
Theorem checkout_returns_old_and_advances
    (session : Session) (now : Z) (channelId : string) (w : World) :
  let w' := (chatRouter.checkout session now channelId w).1 in
  (chatRouter.checkout session now channelId w).2
    = Ok (redis w !! (channelId, session_user_id session))
  /\ redis w' !! (channelId, session_user_id session) = Some now
  /\ getLastRead channelId (session_user_id session) w' = (w', Ok (Some now))
  /\ (forall k, k <> (channelId, session_user_id session) ->
        redis w' !! k = redis w !! k)
  /\ db w' = db w /\ ably w' = ably w.
Proof.
  cbn. unfold getLastRead. cbn.
  rewrite lookup_insert_eq. repeat split; try done.
  intros k Hk. by rewrite lookup_insert_ne.
Qed.

(** ** Refusals of [send], [update] and [delete] *)

(** C4: a [send] without attachment whose content the schema does not turn
    into a non-empty string fails with BAD_REQUEST and leaves the world as it
    was: no message row, no attachment row, no published event, no cursor. *)
Theorem send_empty_is_bad_request `{Collaborators}
    (session : Session) (now : Z) (createId : string) (raw : SendInput)
    (w : World) :
  s_attachment raw = None ->
  (forall content, contentSchema (s_content raw) = Some content ->
     String.length content = 0%nat) ->
  chatRouter.send session now createId raw w = (w, Err BAD_REQUEST).
Proof.
  intros Hatt Hempty.
  unfold chatRouter.send, chatRouter.send_input, bind.
  destruct (contentSchema (s_content raw)) as [content|] eqn:Hc; [|done].
  rewrite (Hempty content eq_refl), Hatt. done.
Qed.

Lemma send_empty_is_bad_request_witness :
  @chatRouter.send (demo true) alice 50 "cuid"
    {| s_channelId := "g1"; s_content := ""; s_attachment := None;
       s_reply := None; s_nonce := None |} demo_world
  = (demo_world, Err BAD_REQUEST).
Proof.
  apply (@send_empty_is_bad_request (demo true)); [reflexivity|].
  intros content [= <-]. reflexivity.
Defined.

(** C2, as amended: an [update] matching no row (no message with that id, or
    the message is in another channel, or the caller is not its author) fails
    with BAD_REQUEST in all three cases, changes no row and publishes
    nothing. *)
Theorem update_unmatched_is_bad_request `{Collaborators}
    (session : Session) (raw : UpdateInput) (w : World) (content : string) :
  contentSchema (e_content raw) = Some content ->
  (forall m, m ∈ messages (db w) -> m_id m = e_messageId raw ->
     m_channel_id m <> e_channelId raw
     \/ m_author_id m <> session_user_id session) ->
  chatRouter.update session raw w = (w, Err BAD_REQUEST).
Proof.
  intros Hc Hno.
  assert (Forall (fun m => ~ update_where (e_messageId raw)
                             (session_user_id session) (e_channelId raw) m)
            (messages (db w))) as Hun.
  { apply Forall_forall. intros m Hm (Hi & Ha & Hch).
    destruct (Hno m Hm Hi); congruence. }
  unfold chatRouter.update, chatRouter.update_input, bind. rewrite Hc. cbn.
  rewrite (fmap_unmatched _ _ _ Hun), (filter_unmatched _ _ Hun). cbn.
  by rewrite with_messages_same, with_db_same.
Qed.

Lemma update_unmatched_is_bad_request_witness :
  @chatRouter.update (demo true) bob
    {| e_messageId := 1; e_channelId := "g1"; e_content := "edited" |}
    demo_world
  = (demo_world, Err BAD_REQUEST).
Proof.
  apply (@update_unmatched_is_bad_request (demo true) _ _ _ "edited");
    [reflexivity|].
  intros m Hm Hid. right.
  cbn in Hm. set_unfold in Hm.
  destruct Hm as [->|[->|[->|[->|[]]]]]; cbn in *; congruence.
Defined.

(** C2 as the specification words it fails: bob editing a message that does
    not exist is answered BAD_REQUEST, not FORBIDDEN. *)
Lemma update_claim_fails :
  ~ @update_claim (demo true) bob
      {| e_messageId := 99; e_channelId := "g1"; e_content := "edited" |}
      demo_world.
Proof.
  intros Hclaim.
  destruct (Hclaim "edited" eq_refl) as [Hcode _].
  - intros m Hm Hid. cbn in Hm. set_unfold in Hm.
    destruct Hm as [->|[->|[->|[->|[]]]]]; cbn in Hid; discriminate.
  - vm_compute in Hcode. discriminate.
Qed.

(** C1, as amended: [delete] fails with NOT_FOUND when no message has the id;
    the author of the message deletes it (the row is gone afterwards and
    "message deleted" is published to its channel); an identity that is not
    the author and owns no group at all is refused with BAD_REQUEST; and
    every refusal is NOT_FOUND or BAD_REQUEST, never FORBIDDEN, and leaves
    the world as it was. *)
Theorem delete_by_author_or_refused
    (session : Session) (messageId : Z) (w : World) :
  let user := session_user_id session in
  let out := chatRouter.delete session messageId w in
  (find_message messageId (db w) = None -> out = (w, Err NOT_FOUND))
  /\ (forall m, find_message messageId (db w) = Some m ->
        m_author_id m = user ->
        out.2 = Ok tt
        /\ messages (db out.1)
           = filter (fun m => m_id m <> messageId) (messages (db w))
        /\ find_message messageId (db out.1) = None
        /\ ably out.1
           = ably w ++ [message_deleted [m_channel_id m] messageId
                          (m_channel_id m)])
  /\ (forall m, find_message messageId (db w) = Some m ->
        m_author_id m <> user ->
        Forall (fun g => g_owner_id g <> user) (groups (db w)) ->
        out = (w, Err BAD_REQUEST))
  /\ (out.2 = Ok tt
      \/ out = (w, Err NOT_FOUND) \/ out = (w, Err BAD_REQUEST)).
Proof.
  cbn zeta.
  unfold chatRouter.delete, chatRouter.checkDeleteMessage, bind, gets.
  split; [|split; [|split]].
  - intros ->. done.
  - intros m -> Hauthor. cbn. rewrite decide_True by done. cbn.
    repeat split.
    unfold find_message. cbn.
    rewrite list_filter_filter.
    rewrite filter_unmatched; [done|].
    apply Forall_forall. intros x _ [? ?]. done.
  - intros m -> Hna Hown. cbn. rewrite decide_False by done. cbn.
    destruct (groups (db w)) as [|g gs]; [done|]. cbn.
    apply Forall_cons in Hown as [Hg _]. by rewrite decide_False.
  - destruct (find_message messageId (db w)) as [m|]; cbn; [|by auto].
    destruct (decide (m_author_id m = session_user_id session)); cbn;
      [by left|].
    destruct (groups (db w)) as [|g gs]; cbn; [by auto|].
    destruct (decide (g_owner_id g = session_user_id session)); cbn; auto.
Qed.

Lemma delete_by_author_or_refused_witness :
  chatRouter.delete bob 99 demo_world = (demo_world, Err NOT_FOUND)
  /\ (chatRouter.delete alice 1 demo_world).2 = Ok tt
  /\ chatRouter.delete carol 1 demo_world
     = (demo_world, Err BAD_REQUEST).
Proof.
  split; [|split].
  - apply (delete_by_author_or_refused bob 99 demo_world).
    reflexivity.
  - eapply (delete_by_author_or_refused alice 1 demo_world);
      reflexivity.
  - destruct (delete_by_author_or_refused carol 1 demo_world)
      as (_ & _ & Hrefused & _).
    eapply Hrefused; [reflexivity|discriminate|].
    cbn. repeat constructor; discriminate.
Defined.

(** C1 as the specification words it fails: carol, neither the author of
    message 1 nor the owner of its group, is answered BAD_REQUEST, not
    FORBIDDEN. *)
Lemma delete_claim_fails :
  ~ delete_claim carol 1 demo_world.
Proof.
  unfold delete_claim. cbn -[chatRouter.delete].
  intros [_ Hrefused].
  destruct Hrefused as [Hcode _].
  - intros [Hauthor|Howner]; [discriminate|].
    unfold owns_channel_of in Howner. cbn in Howner.
    apply Exists_cons in Howner as [[_ ?]|Howner]; [discriminate|].
    apply Exists_cons in Howner as [[? _]|Howner]; [discriminate|].
    by apply Exists_nil in Howner.
  - vm_compute in Hcode. discriminate.
Qed.

(** The group looked up by [checkDeleteMessage] is the first row of [groups],
    whatever the channel of the message: alice, who owns the first group,
    deletes carol's message in the group bob owns, and bob is refused. *)
Example delete_consults_first_group :
  (chatRouter.delete alice 2 demo_world).2 = Ok tt
  /\ chatRouter.delete bob 2 demo_world
     = (demo_world, Err BAD_REQUEST).
Proof. split; reflexivity. Qed.

(** ** The transaction of [send] *)

(** The transaction writes to the store only. *)
Lemma send_transaction_frame (session : Session) (now : Z) (createId : string)
    (perm : ChannelPermission) (input : SendInput) (w : World) :
  let out := chatRouter.send_transaction session now createId perm input w in
  out.1 = with_db (db out.1) w.
Proof.
  unfold chatRouter.send_transaction, chatRouter.insertAttachment,
    insert_attachment_row, insert_message, set_last_message,
    open_direct_message, requireOne, modify_db, gets, bind, ret, throw.
  destruct (s_attachment input); cbn -[select_sent];
    match goal with |- context [select_sent ?i ?d] =>
      destruct (select_sent i d) as [|[[[row author] rm] ru] ?] end; cbn;
    destruct perm; reflexivity.
Qed.

Lemma transaction_frame (session : Session) (now : Z) (createId : string)
    (perm : ChannelPermission) (input : SendInput) (w : World) :
  let out := transaction
      (chatRouter.send_transaction session now createId perm input) w in
  out.1 = with_db (db out.1) w.
Proof.
  cbn zeta. unfold transaction.
  pose proof (send_transaction_frame session now createId perm input w) as Hf.
  cbn zeta in Hf.
  destruct (chatRouter.send_transaction session now createId perm input w)
    as [w' [a|e]]; cbn in *; [done|].
  rewrite Hf. reflexivity.
Qed.

(** After the insert, the row with the fresh id is the inserted one. *)
Lemma filter_fresh_id (d : DB) (row : Message) :
  messages_wf d -> m_id row = messages_insertId d ->
  filter (fun m => m_id m = messages_insertId d) (messages d ++ [row]) = [row].
Proof.
  intros Hwf Hid. rewrite filter_app, filter_unmatched.
  - by rewrite filter_cons_True, filter_nil.
  - eapply Forall_impl; [exact Hwf|]. cbn. intros m Hm. lia.
Qed.

(** The callback of the transaction, run on a well-formed store: it runs to
    its end exactly when the author has a user row, and otherwise throws
    after the inserts. *)
Lemma send_transaction_run (session : Session) (now : Z) (createId : string)
    (perm : ChannelPermission) (input : SendInput) (w : World) :
  messages_wf (db w) ->
  chatRouter.send_transaction session now createId perm input w
  = match find_user (session_user_id session) (db w) with
    | Some u =>
        (with_db (store_after_send perm session now createId input (db w)) w,
         Ok (sent_message perm session now createId input (db w) u))
    | None =>
        (with_db (store_after_inserts session now createId input (db w)) w,
         Err INTERNAL_SERVER_ERROR)
    end.
Proof.
  intros Hwf.
  unfold chatRouter.send_transaction, chatRouter.insertAttachment,
    insert_attachment_row, insert_message, set_last_message,
    open_direct_message, requireOne, modify_db, gets, bind, ret, throw.
  assert (forall d1, messages d1
            = messages (db w) ++ [inserted_row session now createId input (db w)] ->
          users d1 = users (db w) ->
          select_sent (messages_insertId (db w)) d1
          = match find_user (session_user_id session) (db w) with
            | Some u =>
                [(inserted_row session now createId input (db w), userProfile u,
                  m_content <$> reply_message_of
                     (inserted_row session now createId input (db w)) d1,
                  userProfile <$> reply_user_of
                     (inserted_row session now createId input (db w)) d1)]
            | None => []
            end) as Hsel.
  { intros d1 Hm Hu. unfold select_sent. rewrite Hm.
    rewrite filter_fresh_id by done. cbn.
    unfold find_user. rewrite Hu.
    destruct (head _); by rewrite ?app_nil_r. }
  unfold store_after_send, sent_message, store_after_inserts.
  destruct (s_attachment input) as [up|] eqn:Hup; cbn -[select_sent];
    (rewrite Hsel by (unfold inserted_row; by rewrite ?Hup));
    unfold inserted_row; rewrite Hup;
    destruct (find_user _ _); cbn; rewrite ?app_nil_r;
    destruct (db w); destruct perm; reflexivity.
Qed.

(** [db.transaction] around it: after a throw the inserts are still there. *)
Lemma transaction_run (session : Session) (now : Z) (createId : string)
    (perm : ChannelPermission) (input : SendInput) (w : World) :
  messages_wf (db w) ->
  transaction (chatRouter.send_transaction session now createId perm input) w
  = match find_user (session_user_id session) (db w) with
    | Some u =>
        (with_db (store_after_send perm session now createId input (db w)) w,
         Ok (sent_message perm session now createId input (db w) u))
    | None =>
        (with_db (store_after_inserts session now createId input (db w)) w,
         Err INTERNAL_SERVER_ERROR)
    end.
Proof.
  intros Hwf. unfold transaction. rewrite send_transaction_run by done.
  by destruct (find_user _ _).
Qed.

Lemma point_at_points (channel : string) (i : Z) (l : list MessageChannel) :
  Forall (fun c => mc_id c = channel -> mc_last_message_id c = Some i)
    (point_at channel i <$> l).
Proof.
  apply Forall_fmap, Forall_forall. intros c _. cbn. unfold point_at.
  destruct (decide (mc_id c = channel)); cbn; done.
Qed.

Lemma store_after_send_effects (perm : ChannelPermission) (session : Session)
    (now : Z) (createId : string) (input : SendInput) (d : DB) :
  send_effects session now createId input d
    (store_after_send perm session now createId input d).
Proof.
  unfold send_effects, store_after_send, store_after_inserts.
  split; [|split; [|split]].
  - exists (inserted_row session now createId input d).
    destruct perm; cbn; done.
  - destruct (s_attachment input); destruct perm; cbn; by rewrite ?app_nil_r.
  - destruct perm; cbn; done.
  - destruct perm; cbn; apply point_at_points.
Qed.

(** The parsed input of [send] keeps everything but the content. *)
Lemma send_input_run `{Collaborators} (raw : SendInput) (w : World) :
  chatRouter.send_input raw w
  = match contentSchema (s_content raw) with
    | Some content =>
        if negb (String.length content =? 0)%nat || not_null (s_attachment raw)
        then (w, Ok {| s_channelId := s_channelId raw; s_content := content;
                       s_attachment := s_attachment raw;
                       s_reply := s_reply raw; s_nonce := s_nonce raw |})
        else (w, Err BAD_REQUEST)
    | None => (w, Err BAD_REQUEST)
    end.
Proof.
  unfold chatRouter.send_input.
  destruct (contentSchema _); [|done]. by destruct (_ || _).
Qed.

(** [send] on a well-formed store when the input is valid, the permission
    resolves and the author has a user row: the transaction commits, the
    events are published, the sender's cursor advances, and only the notifier
    can still make the call throw. *)
Lemma send_committed `{Collaborators} (session : Session) (now : Z)
    (createId : string) (raw : SendInput) (w : World)
    (input : SendInput) (perm : ChannelPermission) (u : User) :
  messages_wf (db w) ->
  chatRouter.send_input raw w = (w, Ok input) ->
  checkChannelPermissions (s_channelId input) session (db w) = Ok perm ->
  find_user (session_user_id session) (db w) = Some u ->
  let message := sent_message perm session now createId input (db w) u in
  let call := {| bot_content := s_content input;
                 bot_channel_id := s_channelId input;
                 bot_user_name := u_name u |} in
  let out := chatRouter.send session now createId raw w in
  db out.1 = store_after_send perm session now createId input (db w)
  /\ ably out.1
     = ably w
       ++ match perm with
          | dm data =>
              if opens_dm perm (s_channelId input) (db w)
              then [open_dm [dm_to_user_id data] (dm_channel_id data)
                      (userProfile u) 1]
              else []
          | group _ => []
          end
       ++ [message_sent [s_channelId input] message]
  /\ redis out.1
     = <[(s_channelId input, session_user_id session) := now]> (redis w)
  /\ out.2 = if String.prefix "@Shark" (s_content input)
                && negb (notifier_resolves call)
             then Err INTERNAL_SERVER_ERROR else Ok message.
Proof.
  intros Hwf Hin Hperm Hu. cbn zeta.
  unfold chatRouter.send, bind. rewrite Hin, Hperm, transaction_run, Hu by done.
  unfold publish, setLastRead, chatRouter.onReceiveMessage, ret.
  destruct perm; cbn;
    repeat match goal with
           | |- context [if ?b then _ else _] => destruct b; cbn
           end; rewrite <- ?app_assoc; done.
Qed.

(** Every [send] on a well-formed store either throws, having published
    nothing and written at most the inserts of its transaction, or runs as
    [send_committed] describes. *)
Lemma send_cases `{Collaborators} (session : Session) (now : Z)
    (createId : string) (raw : SendInput) (w : World) :
  messages_wf (db w) ->
  (exists e w',
     chatRouter.send session now createId raw w = (w', Err e)
     /\ w' = with_db (db w') w
     /\ (db w' = db w
         \/ exists input,
              chatRouter.send_input raw w = (w, Ok input)
              /\ db w' = store_after_inserts session now createId input
                           (db w)))
  \/ exists input perm u,
       chatRouter.send_input raw w = (w, Ok input)
       /\ s_channelId input = s_channelId raw
       /\ s_attachment input = s_attachment raw
       /\ s_reply input = s_reply raw
       /\ checkChannelPermissions (s_channelId input) session (db w) = Ok perm
       /\ find_user (session_user_id session) (db w) = Some u.
Proof.
  intros Hwf.
  destruct (chatRouter.send_input raw w) as [w0 [input|e]] eqn:Hin.
  - assert (w0 = w /\ s_channelId input = s_channelId raw
            /\ s_attachment input = s_attachment raw
            /\ s_reply input = s_reply raw) as (-> & Hc & Ha & Hr).
    { rewrite send_input_run in Hin.
      destruct (contentSchema _); [destruct (_ || _)|]; by inversion Hin. }
    destruct (checkChannelPermissions (s_channelId input) session (db w))
      as [perm|e] eqn:Hperm.
    + destruct (find_user (session_user_id session) (db w)) as [u|] eqn:Hu.
      * right. by exists input, perm, u.
      * left. exists INTERNAL_SERVER_ERROR. eexists.
        unfold chatRouter.send, bind.
        rewrite Hin, Hperm, transaction_run, Hu by done.
        split; [reflexivity|]. split; [done|]. right. by exists input.
    + left. exists e, w. unfold chatRouter.send, bind. rewrite Hin, Hperm.
      split; [done|]. split; [by rewrite with_db_same|by left].
  - left. exists e, w. unfold chatRouter.send, bind. rewrite Hin.
    rewrite send_input_run in Hin.
    split; [|split; [by rewrite with_db_same|by left]].
    destruct (contentSchema _); [destruct (_ || _)|]; by inversion Hin.
Qed.

(** The invariants of the store after the inserts alone. *)
Lemma store_after_inserts_wf (session : Session) (now : Z)
    (createId : string) (input : SendInput) (d : DB) :
  messages_wf d -> messages_wf (store_after_inserts session now createId input d).
Proof.
  intros Hwf. unfold messages_wf, store_after_inserts. cbn.
  apply Forall_app. split.
  - eapply Forall_impl; [exact Hwf|]. cbn. intros. lia.
  - repeat constructor. cbn. lia.
Qed.

Lemma demo_db_wf : messages_wf demo_db.
Proof. unfold messages_wf. cbn. repeat constructor. Qed.

(** C5: the writes of [send] are not one atomic unit.  On a store whose ids
    lie below the counter, a valid [send] into a channel the caller may write
    to, by an identity without user row, throws after its inserts, and
    nothing undoes them: the message row, and the attachment row when a
    descriptor was given, are in the store, while no last-message pointer has
    moved and nothing was published. *)
Theorem send_throw_keeps_its_inserts `{Collaborators} (session : Session)
    (now : Z) (createId : string) (raw input : SendInput) (w : World)
    (perm : ChannelPermission) :
  messages_wf (db w) ->
  chatRouter.send_input raw w = (w, Ok input) ->
  checkChannelPermissions (s_channelId input) session (db w) = Ok perm ->
  (forall u, u ∈ users (db w) -> u_id u <> session_user_id session) ->
  let out := chatRouter.send session now createId raw w in
  out.2 = Err INTERNAL_SERVER_ERROR
  /\ messages (db out.1)
     = messages (db w) ++ [inserted_row session now createId input (db w)]
  /\ attachments (db out.1)
     = attachments (db w)
       ++ option_list (bound_attachment createId <$> s_attachment input)
  /\ messageChannels (db out.1) = messageChannels (db w)
  /\ ably out.1 = ably w
  /\ redis out.1 = redis w
  /\ db out.1 <> db w.
Proof.
  intros Hwf Hin Hperm Habsent. cbn zeta.
  unfold chatRouter.send, bind.
  rewrite Hin, Hperm, transaction_run, find_user_absent by done.
  cbn. repeat split.
  intros Heq. apply (f_equal (fun d => length (messages d))) in Heq.
  cbn in Heq. rewrite length_app in Heq. cbn in Heq. lia.
Qed.

Lemma send_throw_keeps_its_inserts_witness :
  (@chatRouter.send (demo true) {| session_user_id := "erin" |} 50 "cuid"
     {| s_channelId := "g1"; s_content := "look";
        s_attachment := Some {| up_rest := "image:cat.png";
                                up_width := Some 640; up_height := None |};
        s_reply := None; s_nonce := None |} demo_world).2
  = Err INTERNAL_SERVER_ERROR
  /\ m_id <$> messages
       (db (@chatRouter.send (demo true) {| session_user_id := "erin" |} 50
              "cuid"
              {| s_channelId := "g1"; s_content := "look";
                 s_attachment := Some {| up_rest := "image:cat.png";
                                         up_width := Some 640;
                                         up_height := None |};
                 s_reply := None; s_nonce := None |} demo_world).1)
     = [1; 2; 3; 4; 5]
  /\ messageChannels
       (db (@chatRouter.send (demo true) {| session_user_id := "erin" |} 50
              "cuid"
              {| s_channelId := "g1"; s_content := "look";
                 s_attachment := Some {| up_rest := "image:cat.png";
                                         up_width := Some 640;
                                         up_height := None |};
                 s_reply := None; s_nonce := None |} demo_world).1)
     = messageChannels demo_db.
Proof.
  edestruct (@send_throw_keeps_its_inserts (demo true)
               {| session_user_id := "erin" |} 50 "cuid"
               {| s_channelId := "g1"; s_content := "look";
                  s_attachment := Some {| up_rest := "image:cat.png";
                                          up_width := Some 640;
                                          up_height := None |};
                  s_reply := None; s_nonce := None |}
               {| s_channelId := "g1"; s_content := "look";
                  s_attachment := Some {| up_rest := "image:cat.png";
                                          up_width := Some 640;
                                          up_height := None |};
                  s_reply := None; s_nonce := None |} demo_world)
    as (Hanswer & Hmessages & _ & Hchannels & _);
    [apply demo_db_wf|vm_compute; reflexivity..| |].
  - intros u Hu. cbn in Hu.
    apply elem_of_cons in Hu as [->|Hu]; [discriminate|].
    apply elem_of_cons in Hu as [->|Hu]; [discriminate|].
    apply elem_of_cons in Hu as [->|Hu]; [discriminate|].
    by apply elem_of_nil in Hu.
  - split; [exact Hanswer|]. split; [|exact Hchannels].
    rewrite Hmessages. reflexivity.
Defined.

(** The writes of a [send] that succeeds.  On a store whose ids lie below
    the counter, such a [send] has appended exactly one message row, the one
    it answers with, carrying the fresh id and naming the attachment; it has
    appended one attachment row exactly when a descriptor was supplied; and
    it has set the last-message pointer of the channel to the new id. *)
Theorem send_success_writes `{Collaborators} (session : Session) (now : Z)
    (createId : string) (raw : SendInput) (w : World)
    (message : SentMessage) :
  messages_wf (db w) ->
  (chatRouter.send session now createId raw w).2 = Ok message ->
  exists input,
    chatRouter.send_input raw w = (w, Ok input)
    /\ send_effects session now createId input (db w)
         (db (chatRouter.send session now createId raw w).1)
    /\ last (messages (db (chatRouter.send session now createId raw w).1))
       = Some (sm_row message).
Proof.
  intros Hwf Hok.
  destruct (send_cases session now createId raw w Hwf)
    as [(e & w0 & He & _)|(input & perm & u & Hin & _ & _ & _ & Hperm & Hu)].
  - rewrite He in Hok. discriminate.
  - destruct (send_committed session now createId raw w input perm u
                Hwf Hin Hperm Hu) as (Hdb & _ & _ & Hanswer).
    exists input. split; [done|].
    rewrite Hdb. split; [apply store_after_send_effects|].
    rewrite Hanswer in Hok. destruct (_ && _); [done|].
    injection Hok as <-.
    unfold store_after_send, store_after_inserts.
    destruct perm; cbn; by rewrite last_snoc.
Qed.

Lemma send_success_writes_witness :
  exists input,
    send_effects alice 50 "cuid" input demo_db
      (db (@chatRouter.send (demo true) alice 50 "cuid"
             {| s_channelId := "g1"; s_content := "look";
                s_attachment := Some {| up_rest := "image:cat.png";
                                        up_width := Some 640;
                                        up_height := None |};
                s_reply := None; s_nonce := Some 7 |} demo_world).1).
Proof.
  edestruct (@send_success_writes (demo true) alice 50 "cuid"
               {| s_channelId := "g1"; s_content := "look";
                  s_attachment := Some {| up_rest := "image:cat.png";
                                          up_width := Some 640;
                                          up_height := None |};
                  s_reply := None; s_nonce := Some 7 |} demo_world)
    as (input & _ & Heff & _); [apply demo_db_wf|vm_compute; reflexivity|].
  exists input. exact Heff.
Defined.

(** ** The bot notifier *)

(** C3, as amended: when the transaction of a [send] has committed and the
    content starts with "@Shark", the notifier is called once, after the
    publishes, with the content, the channel id and the author's name; if it
    resolves the caller receives the hydrated message; if it throws, [send]
    throws too, the committed rows and the published events staying. *)
Theorem send_notifies_bot `{Collaborators} (session : Session) (now : Z)
    (createId : string) (raw : SendInput) (w : World)
    (input : SendInput) (perm : ChannelPermission) (w1 : World)
    (message : SentMessage) :
  chatRouter.send_input raw w = (w, Ok input) ->
  checkChannelPermissions (s_channelId input) session (db w) = Ok perm ->
  transaction (chatRouter.send_transaction session now createId perm input) w
    = (w1, Ok message) ->
  String.prefix "@Shark" (s_content input) = true ->
  let call := {| bot_content := s_content input;
                 bot_channel_id := s_channelId input;
                 bot_user_name := name (sm_author message) |} in
  let out := chatRouter.send session now createId raw w in
  inworld out.1 = inworld w ++ [call]
  /\ db out.1 = db w1
  /\ last (ably out.1) = Some (message_sent [s_channelId input] message)
  /\ out.2 = if notifier_resolves call
             then Ok message else Err INTERNAL_SERVER_ERROR.
Proof.
  intros Hin Hperm Htx Hprefix. cbn zeta.
  pose proof (transaction_frame session now createId perm input w) as Hframe.
  cbn zeta in Hframe. rewrite Htx in Hframe. cbn in Hframe.
  unfold chatRouter.send, bind. rewrite Hin, Hperm, Htx, Hprefix.
  unfold publish, setLastRead, chatRouter.onReceiveMessage, ret.
  rewrite Hframe.
  destruct perm; cbn;
    repeat match goal with
           | |- context [if ?b then _ else _] => destruct b; cbn
           end; rewrite ?last_snoc; done.
Qed.

Lemma send_notifies_bot_witness :
  inworld (@chatRouter.send (demo true) alice 50 "cuid"
             {| s_channelId := "g1"; s_content := "@Shark hi";
                s_attachment := None; s_reply := None; s_nonce := None |}
             demo_world).1
  = [{| bot_content := "@Shark hi"; bot_channel_id := "g1";
        bot_user_name := "Alice" |}].
Proof.
  edestruct (@send_notifies_bot (demo true) alice 50 "cuid"
               {| s_channelId := "g1"; s_content := "@Shark hi";
                  s_attachment := None; s_reply := None; s_nonce := None |}
               demo_world) as [Hcall _];
    [vm_compute; reflexivity..|].
  exact Hcall.
Defined.

(** C3 as the specification words it fails: with the notifier down, alice's
    "@Shark hi" is committed and published, and [send] answers with the
    notifier's error instead of the message. *)
Lemma notifier_claim_fails :
  ~ @notifier_claim (demo false) alice 50 "cuid"
      {| s_channelId := "g1"; s_content := "@Shark hi";
         s_attachment := None; s_reply := None; s_nonce := None |}
      demo_world.
Proof.
  intros Hclaim.
  edestruct Hclaim as [_ Hanswer]; [vm_compute; reflexivity..|].
  vm_compute in Hanswer. discriminate.
Qed.

(** ** Pages of [messages] *)

#[local] Instance newer_first_total : Total newer_first.
Proof. intros a b. unfold newer_first. lia. Qed.

#[local] Instance newer_first_trans : Transitive newer_first.
Proof. intros a b c. unfold newer_first. lia. Qed.

(** A valid [messages] call answers with the page the query selects and
    changes nothing. *)
Lemma messages_run `{Collaborators} (session : Session) (raw : MessagesInput)
    (w : World) (perm : ChannelPermission) :
  0 <= default 50 (q_count raw) <= 50 ->
  checkChannelPermissions (q_channelId raw) session (db w) = Ok perm ->
  chatRouter.messages session raw w
  = (w, Ok (select_messages (q_channelId raw)
              (default before (q_cursorType raw)) (q_cursor raw)
              (default 50 (q_count raw)) (db w))).
Proof.
  intros Hcount Hperm.
  unfold chatRouter.messages, chatRouter.messages_input, bind, gets, ret.
  destruct (Z.leb_spec 0 (default 50 (q_count raw))); [|lia].
  destruct (Z.leb_spec (default 50 (q_count raw)) 50); [|lia].
  cbn. rewrite Hperm. by rewrite Z.min_l.
Qed.

(** What [limit] keeps. *)
Lemma limit_zero {A} (rows : list A) : limit 0 rows = rows.
Proof. done. Qed.

Lemma limit_take {A} (count : Z) (rows : list A) :
  1 <= count -> limit count rows = take (Z.to_nat count) rows.
Proof.
  intros Hc. unfold limit. destruct (Z.eqb_spec count 0); [lia|done].
Qed.

Lemma limit_sublist {A} (count : Z) (rows : list A) :
  limit count rows `sublist_of` rows.
Proof.
  unfold limit. destruct (count =? 0); [done|apply sublist_take].
Qed.

Lemma limit_sorted (count : Z) (rows : list HydratedMessage) :
  StronglySorted newer_first rows ->
  StronglySorted newer_first (limit count rows).
Proof.
  intros Hl. unfold limit. destruct (count =? 0); [done|].
  rewrite <- (take_drop (Z.to_nat count) rows) in Hl.
  by apply StronglySorted_app_1_l in Hl.
Qed.

(** The rows of a page come from the channel and satisfy the cursor. *)
Lemma select_messages_sound (channelId : string) (cursorType : CursorType)
    (cursor : option Z) (count : Z) (d : DB) (r : HydratedMessage) :
  r ∈ select_messages channelId cursorType cursor count d ->
  hm_row r ∈ messages d
  /\ r = hydrate d (hm_row r)
  /\ m_channel_id (hm_row r) = channelId
  /\ cursor_cond cursorType cursor (hm_row r).
Proof.
  unfold select_messages. intros Hr.
  eapply elem_of_sublist in Hr; [|apply limit_sublist].
  rewrite merge_sort_Permutation in Hr.
  apply list_elem_of_filter in Hr as [[Hc Hk] Hr].
  apply list_elem_of_fmap in Hr as (m & -> & Hm). done.
Qed.

Lemma select_messages_sorted (channelId : string) (cursorType : CursorType)
    (cursor : option Z) (count : Z) (d : DB) :
  StronglySorted newer_first
    (select_messages channelId cursorType cursor count d).
Proof.
  unfold select_messages. apply limit_sorted.
  apply (StronglySorted_merge_sort _).
Qed.

Lemma filter_hydrate (channelId : string) (cursorType : CursorType)
    (cursor : option Z) (d : DB) (l : list Message) :
  filter (messages_where channelId cursorType cursor) (hydrate d <$> l)
  = hydrate d <$> filter (fun m => m_channel_id m = channelId
                                   /\ cursor_cond cursorType cursor m) l.
Proof.
  induction l as [|m l IH]; [done|].
  rewrite fmap_cons, !filter_cons, IH.
  destruct (decide (messages_where _ _ _ _)) as [Hw|Hw],
    (decide (_ /\ _)) as [Hm|Hm]; done.
Qed.

(** With a count of at least 1 the page holds as many rows as the limit
    allows. *)
Lemma select_messages_count (channelId : string) (cursorType : CursorType)
    (cursor : option Z) (count : Z) (d : DB) :
  1 <= count ->
  Z.of_nat (length (select_messages channelId cursorType cursor count d))
  = Z.min count
      (Z.of_nat (length (filter (fun m => m_channel_id m = channelId
                                          /\ cursor_cond cursorType cursor m)
                           (messages d)))).
Proof.
  intros Hc. unfold select_messages.
  rewrite limit_take, length_take, merge_sort_Permutation, filter_hydrate,
    length_fmap by done.
  lia.
Qed.

(** No stored row is listed more often than it is stored. *)
Lemma select_messages_submseteq (channelId : string) (cursorType : CursorType)
    (cursor : option Z) (count : Z) (d : DB) :
  select_messages channelId cursorType cursor count d
  ⊆+ hydrate d <$> filter (fun m => m_channel_id m = channelId
                                    /\ cursor_cond cursorType cursor m)
                     (messages d).
Proof.
  unfold select_messages. rewrite <- filter_hydrate.
  etrans; [apply sublist_submseteq, limit_sublist|].
  by rewrite merge_sort_Permutation.
Qed.

(** A message of the channel that satisfies the cursor is missing from the
    page only when the page is full of messages at least as recent. *)
Lemma select_messages_complete (channelId : string) (cursorType : CursorType)
    (cursor : option Z) (count : Z) (d : DB) (m : Message) :
  0 <= count ->
  m ∈ messages d -> m_channel_id m = channelId ->
  cursor_cond cursorType cursor m ->
  let page := select_messages channelId cursorType cursor count d in
  hydrate d m ∈ page
  \/ (Z.of_nat (length page) = count
      /\ Forall (fun r => m_timestamp m <= m_timestamp (hm_row r)) page).
Proof.
  intros Hcount Hm Hc Hk. cbn zeta. unfold select_messages.
  set (l := merge_sort _ _).
  assert (hydrate d m ∈ l) as Hin.
  { unfold l. rewrite merge_sort_Permutation.
    apply list_elem_of_filter. split; [done|].
    apply list_elem_of_fmap. by exists m. }
  destruct (decide (count = 0)) as [->|Hnz]; [by left|].
  rewrite limit_take by lia.
  assert (StronglySorted newer_first l) as Hl
    by apply (StronglySorted_merge_sort _).
  rewrite <- (take_drop (Z.to_nat count) l) in Hin, Hl.
  apply elem_of_app in Hin as [Hin|Hin]; [by left|right].
  split.
  - rewrite length_take.
    assert (drop (Z.to_nat count) l <> []) as Hne
      by (intros Hnil; rewrite Hnil in Hin; by apply elem_of_nil in Hin).
    assert (length (drop (Z.to_nat count) l) <> 0%nat) as Hlen
      by (by destruct (drop _ l)).
    rewrite length_drop in Hlen. lia.
  - apply Forall_forall. intros r Hr.
    apply (StronglySorted_app_1_elem_of _ _ _ r (hydrate d m)) in Hl; done.
Qed.

(** C7: the limit is lost at count 0.  A [messages] call with count 0 on a
    channel the caller may read does not answer with at most 0 rows: the
    statement carries no LIMIT, and the page holds every message of the
    channel on the asked side of the cursor, as many as there are. *)
Theorem messages_count_zero_is_unlimited `{Collaborators} (session : Session)
    (raw : MessagesInput) (w : World) (perm : ChannelPermission) :
  q_count raw = Some 0 ->
  checkChannelPermissions (q_channelId raw) session (db w) = Ok perm ->
  exists page,
    chatRouter.messages session raw w = (w, Ok page)
    /\ length page
       = length (filter (fun m => m_channel_id m = q_channelId raw
                                  /\ cursor_cond
                                       (default before (q_cursorType raw))
                                       (q_cursor raw) m)
                   (messages (db w)))
    /\ (forall m, m ∈ messages (db w) -> m_channel_id m = q_channelId raw ->
          cursor_cond (default before (q_cursorType raw)) (q_cursor raw) m ->
          hydrate (db w) m ∈ page).
Proof.
  intros Hzero Hperm.
  eexists. split.
  { eapply messages_run; [rewrite Hzero; cbn; lia|done]. }
  rewrite Hzero. cbn [default]. unfold select_messages.
  rewrite limit_zero. split.
  - by rewrite merge_sort_Permutation, filter_hydrate, length_fmap.
  - intros m Hm Hc Hk. rewrite merge_sort_Permutation.
    apply list_elem_of_filter. split; [done|].
    apply list_elem_of_fmap. by exists m.
Qed.

Lemma messages_count_zero_is_unlimited_witness :
  exists page,
    @chatRouter.messages (demo true) bob
      {| q_channelId := "g2"; q_count := Some 0; q_cursorType := None;
         q_cursor := None |} demo_world
    = (demo_world, Ok page)
    /\ length page = 3%nat.
Proof.
  destruct (@messages_count_zero_is_unlimited (demo true) bob
              {| q_channelId := "g2"; q_count := Some 0; q_cursorType := None;
                 q_cursor := None |} demo_world
              (group {| g_id := 2; g_channel_id := "g2"; g_owner_id := "bob" |}))
    as (page & Hrun & Hlength & _); [reflexivity..|].
  exists page. split; [exact Hrun|]. rewrite Hlength. reflexivity.
Defined.

(** With count 0 the page of the small deployment holds the three messages
    of the channel, newest first. *)
Example demo_count_zero :
  (@chatRouter.messages (demo true) bob
     {| q_channelId := "g2"; q_count := Some 0; q_cursorType := None;
        q_cursor := None |} demo_world).2
  = Ok (hydrate demo_db <$> [message 4 "dave" "bye" "g2" None 40;
                             message 3 "bob" "re" "g2" (Some 9) 30;
                             message 2 "carol" "hello" "g2" None 20]).
Proof. vm_compute. reflexivity. Qed.

(** A [messages] call with a count from 1 to 50 on a channel the caller may
    read answers with a page of hydrated rows of that channel; with a cursor
    and type "before" (the default) every row is strictly older than the
    cursor, with "after" strictly newer; the page is ordered newest first,
    lists no stored row more often than it is stored, and has [count] rows,
    or as many as the channel has on that side of the cursor if these are
    fewer; and a message of the channel that satisfies the cursor (any
    message, when there is no cursor) is left out only when the page is full
    and holds nothing older than it. *)
Theorem messages_page_from_one `{Collaborators} (session : Session)
    (raw : MessagesInput) (w : World) (perm : ChannelPermission) :
  let count := default 50 (q_count raw) in
  let cursorType := default before (q_cursorType raw) in
  1 <= count <= 50 ->
  checkChannelPermissions (q_channelId raw) session (db w) = Ok perm ->
  exists page,
    chatRouter.messages session raw w = (w, Ok page)
    /\ Forall (fun r => hm_row r ∈ messages (db w)
                        /\ m_channel_id (hm_row r) = q_channelId raw
                        /\ r = hydrate (db w) (hm_row r)) page
    /\ (forall k, q_cursor raw = Some k -> cursorType = before ->
          Forall (fun r => m_timestamp (hm_row r) < k) page)
    /\ (forall k, q_cursor raw = Some k -> cursorType = after ->
          Forall (fun r => k < m_timestamp (hm_row r)) page)
    /\ StronglySorted newer_first page
    /\ page ⊆+ hydrate (db w)
               <$> filter (fun m => m_channel_id m = q_channelId raw
                                    /\ cursor_cond cursorType (q_cursor raw) m)
                     (messages (db w))
    /\ Z.of_nat (length page)
       = Z.min count
           (Z.of_nat (length (filter
              (fun m => m_channel_id m = q_channelId raw
                        /\ cursor_cond cursorType (q_cursor raw) m)
              (messages (db w)))))
    /\ (forall m, m ∈ messages (db w) -> m_channel_id m = q_channelId raw ->
          cursor_cond cursorType (q_cursor raw) m ->
          hydrate (db w) m ∈ page
          \/ (Z.of_nat (length page) = count
              /\ Forall (fun r => m_timestamp m <= m_timestamp (hm_row r))
                   page)).
Proof.
  intros count cursorType Hcount Hperm.
  eexists. split; [eapply messages_run; [lia|done]|].
  fold count cursorType.
  split; [|split; [|split; [|split; [|split; [|split]]]]].
  - apply Forall_forall. intros r Hr.
    apply select_messages_sound in Hr. tauto.
  - intros k Hk Ht. apply Forall_forall. intros r Hr.
    apply select_messages_sound in Hr as (_ & _ & _ & Hcond).
    by rewrite Hk, Ht in Hcond.
  - intros k Hk Ht. apply Forall_forall. intros r Hr.
    apply select_messages_sound in Hr as (_ & _ & _ & Hcond).
    by rewrite Hk, Ht in Hcond.
  - apply select_messages_sorted.
  - apply select_messages_submseteq.
  - apply select_messages_count. lia.
  - intros m Hm Hc Hk. apply select_messages_complete; [lia|done..].
Qed.

Lemma messages_page_from_one_witness :
  exists page,
    @chatRouter.messages (demo true) bob
      {| q_channelId := "g2"; q_count := Some 2; q_cursorType := None;
         q_cursor := Some 40 |} demo_world
    = (demo_world, Ok page)
    /\ Forall (fun r => m_timestamp (hm_row r) < 40) page
    /\ length page = 2%nat.
Proof.
  destruct (@messages_page_from_one (demo true) bob
              {| q_channelId := "g2"; q_count := Some 2; q_cursorType := None;
                 q_cursor := Some 40 |} demo_world
              (group {| g_id := 2; g_channel_id := "g2"; g_owner_id := "bob" |}))
    as (page & Hrun & _ & Hbefore & _ & _ & _ & Hlength & _);
    [cbn; lia|reflexivity|].
  exists page. split; [exact Hrun|]. split; [by apply (Hbefore 40)|].
  apply Nat2Z.inj. rewrite Hlength. reflexivity.
Defined.

(** ** Joins: missing parents and missing authors *)

Lemma find_message_absent (k : Z) (d : DB) :
  (forall m, m ∈ messages d -> m_id m <> k) -> find_message k d = None.
Proof.
  intros Hk. unfold find_message. rewrite filter_unmatched; [done|].
  apply Forall_forall. intros m Hm. by apply Hk.
Qed.

Lemma reply_of_absent (m : Message) (k : Z) (d : DB) :
  m_reply_id m = Some k -> find_message k d = None ->
  reply_message_of m d = None /\ reply_user_of m d = None.
Proof.
  intros Hr Hk. unfold reply_user_of, reply_message_of. by rewrite Hr, Hk.
Qed.

(** C9: a message whose [reply_id] names no stored message is answered with
    null [reply_message] and [reply_user].  In [messages], every such row of
    the page has both fields null, the call succeeds, and the row is subject
    to the cursor and the limit like any other.  In [send], on a well-formed
    store, a valid input replying to an id that neither exists nor is the id
    about to be assigned commits and yields a message with both fields null;
    the call can then only throw through the notifier. *)
Theorem missing_parent_gives_null_reply `{Collaborators} :
  (forall (session : Session) (raw : MessagesInput) (w : World)
          (perm : ChannelPermission),
     0 <= default 50 (q_count raw) <= 50 ->
     checkChannelPermissions (q_channelId raw) session (db w) = Ok perm ->
     exists page,
       chatRouter.messages session raw w = (w, Ok page)
       /\ Forall (fun r => forall k,
                    m_reply_id (hm_row r) = Some k ->
                    (forall m, m ∈ messages (db w) -> m_id m <> k) ->
                    hm_reply_message r = None /\ hm_reply_user r = None) page
       /\ (forall m k,
             m ∈ messages (db w) -> m_channel_id m = q_channelId raw ->
             cursor_cond (default before (q_cursorType raw)) (q_cursor raw) m ->
             m_reply_id m = Some k ->
             (forall p, p ∈ messages (db w) -> m_id p <> k) ->
             (exists r, r ∈ page /\ hm_row r = m
                        /\ hm_reply_message r = None /\ hm_reply_user r = None)
             \/ (Z.of_nat (length page) = default 50 (q_count raw)
                 /\ Forall (fun r => m_timestamp m <= m_timestamp (hm_row r))
                      page)))
  /\ (forall (session : Session) (now : Z) (createId : string)
             (raw input : SendInput) (w : World) (perm : ChannelPermission)
             (u : User) (k : Z),
        messages_wf (db w) ->
        chatRouter.send_input raw w = (w, Ok input) ->
        checkChannelPermissions (s_channelId input) session (db w) = Ok perm ->
        find_user (session_user_id session) (db w) = Some u ->
        s_reply raw = Some k ->
        (forall m, m ∈ messages (db w) -> m_id m <> k) ->
        k <> messages_insertId (db w) ->
        exists message,
          m_reply_id (sm_row message) = Some k
          /\ sm_reply_message message = None
          /\ sm_reply_user message = None
          /\ last (messages (db (chatRouter.send session now createId raw w).1))
             = Some (sm_row message)
          /\ (chatRouter.send session now createId raw w).2
             = if String.prefix "@Shark" (s_content input)
                  && negb (notifier_resolves
                             {| bot_content := s_content input;
                                bot_channel_id := s_channelId input;
                                bot_user_name := u_name u |})
               then Err INTERNAL_SERVER_ERROR else Ok message).
Proof.
  split.
  - intros session raw w perm Hcount Hperm.
    eexists. split; [by eapply messages_run|]. split.
    + apply Forall_forall. intros r Hr k Hreply Habsent.
      apply select_messages_sound in Hr as (_ & -> & _). cbn in *.
      destruct (reply_of_absent (hm_row r) k (db w) Hreply
                  (find_message_absent k (db w) Habsent)) as [-> ->]. done.
    + intros m k Hm Hc Hcond Hreply Habsent.
      destruct (select_messages_complete (q_channelId raw)
                  (default before (q_cursorType raw)) (q_cursor raw)
                  (default 50 (q_count raw)) (db w) m) as [Hin|Hfull];
        [lia|done..| |by right].
      left. exists (hydrate (db w) m). cbn.
      destruct (reply_of_absent m k (db w) Hreply
                  (find_message_absent k (db w) Habsent)) as [-> ->]. done.
  - intros session now createId raw input w perm u k
      Hwf Hin Hperm Hu Hreply Habsent Hfresh.
    destruct (send_committed session now createId raw w input perm u
                Hwf Hin Hperm Hu) as (Hdb & _ & _ & Hanswer).
    exists (sent_message perm session now createId input (db w) u).
    assert (s_reply input = Some k) as Hreply'.
    { rewrite send_input_run in Hin.
      destruct (contentSchema _); [destruct (_ || _)|]; inversion Hin.
      done. }
    assert (find_message k (store_after_inserts session now createId input
                              (db w)) = None) as Hnone.
    { apply find_message_absent. intros m Hm. cbn in Hm.
      apply elem_of_app in Hm as [Hm|Hm]; [by apply Habsent|].
      apply list_elem_of_singleton in Hm as ->. cbn. congruence. }
    destruct (reply_of_absent (inserted_row session now createId input (db w))
                k _ Hreply' Hnone) as [Hrm Hru].
    cbn. rewrite Hrm, Hru, Hdb. repeat split; try done.
    unfold store_after_send, store_after_inserts.
    destruct perm; cbn; by rewrite last_snoc.
Qed.

Lemma missing_parent_gives_null_reply_witness :
  (exists page,
     @chatRouter.messages (demo true) bob
       {| q_channelId := "g2"; q_count := None; q_cursorType := Some after;
          q_cursor := Some 20 |} demo_world
     = (demo_world, Ok page)
     /\ Forall (fun r => m_reply_id (hm_row r) = Some 9 ->
                         hm_reply_message r = None /\ hm_reply_user r = None)
          page)
  /\ exists message,
       sm_reply_message message = None
       /\ (@chatRouter.send (demo true) alice 50 "cuid"
             {| s_channelId := "g1"; s_content := "re: gone";
                s_attachment := None; s_reply := Some 9; s_nonce := None |}
             demo_world).2 = Ok message.
Proof.
  assert (forall m, m ∈ messages demo_db -> m_id m <> 9) as Habsent.
  { intros m Hm. cbn in Hm. set_unfold in Hm.
    destruct Hm as [->|[->|[->|[->|[]]]]]; cbn; lia. }
  destruct (@missing_parent_gives_null_reply (demo true)) as [Hlist Hsend].
  split.
  - destruct (Hlist bob
                {| q_channelId := "g2"; q_count := None;
                   q_cursorType := Some after; q_cursor := Some 20 |}
                demo_world
                (group {| g_id := 2; g_channel_id := "g2";
                          g_owner_id := "bob" |}))
      as (page & Hrun & Hnull & _); [cbn; lia|reflexivity|].
    exists page. split; [exact Hrun|].
    eapply Forall_impl; [exact Hnull|]. cbn. intros r Hr Hreply.
    by apply (Hr 9).
  - edestruct (Hsend alice 50 "cuid"
                 {| s_channelId := "g1"; s_content := "re: gone";
                    s_attachment := None; s_reply := Some 9;
                    s_nonce := None |}
                 {| s_channelId := "g1"; s_content := "re: gone";
                    s_attachment := None; s_reply := Some 9;
                    s_nonce := None |} demo_world)
      as (message & _ & Hnull & _ & _ & Hanswer);
      [apply demo_db_wf|vm_compute; reflexivity..|exact Habsent|cbn; lia|].
    exists message. split; [exact Hnull|exact Hanswer].
Defined.

(** C10: [messages] left-joins the author: every row of the page whose
    author has no user row carries a null author, and such a message is
    subject to the cursor and the limit like any other.  [send] inner-joins
    it: on a well-formed store, a valid [send] by an identity without user
    row throws when it reads the inserted row back, the inserts staying in
    the store and nothing being published, and a [send] that succeeds
    answers with the profile of the author's user row. *)
Theorem author_left_joined_in_messages_inner_in_send `{Collaborators} :
  (forall (session : Session) (raw : MessagesInput) (w : World)
          (perm : ChannelPermission),
     0 <= default 50 (q_count raw) <= 50 ->
     checkChannelPermissions (q_channelId raw) session (db w) = Ok perm ->
     exists page,
       chatRouter.messages session raw w = (w, Ok page)
       /\ Forall (fun r =>
                    (forall u, u ∈ users (db w) ->
                       u_id u <> m_author_id (hm_row r)) ->
                    hm_author r = None) page
       /\ (forall m,
             m ∈ messages (db w) -> m_channel_id m = q_channelId raw ->
             cursor_cond (default before (q_cursorType raw)) (q_cursor raw) m ->
             (forall u, u ∈ users (db w) -> u_id u <> m_author_id m) ->
             (exists r, r ∈ page /\ hm_row r = m /\ hm_author r = None)
             \/ (Z.of_nat (length page) = default 50 (q_count raw)
                 /\ Forall (fun r => m_timestamp m <= m_timestamp (hm_row r))
                      page)))
  /\ (forall (session : Session) (now : Z) (createId : string)
             (raw input : SendInput) (w : World) (perm : ChannelPermission),
        messages_wf (db w) ->
        chatRouter.send_input raw w = (w, Ok input) ->
        checkChannelPermissions (s_channelId input) session (db w) = Ok perm ->
        ((forall u, u ∈ users (db w) -> u_id u <> session_user_id session) ->
         chatRouter.send session now createId raw w
         = (with_db (store_after_inserts session now createId input (db w)) w,
            Err INTERNAL_SERVER_ERROR))
        /\ (forall message,
              (chatRouter.send session now createId raw w).2 = Ok message ->
              exists u, u ∈ users (db w)
                        /\ u_id u = session_user_id session
                        /\ sm_author message = userProfile u)).
Proof.
  split.
  - intros session raw w perm Hcount Hperm.
    eexists. split; [by eapply messages_run|]. split.
    + apply Forall_forall. intros r Hr Habsent.
      apply select_messages_sound in Hr as (_ & -> & _). cbn.
      by rewrite find_user_absent.
    + intros m Hm Hc Hcond Habsent.
      destruct (select_messages_complete (q_channelId raw)
                  (default before (q_cursorType raw)) (q_cursor raw)
                  (default 50 (q_count raw)) (db w) m) as [Hin|Hfull];
        [lia|done..| |by right].
      left. exists (hydrate (db w) m). cbn.
      by rewrite find_user_absent.
  - intros session now createId raw input w perm Hwf Hin Hperm. split.
    + intros Habsent. unfold chatRouter.send, bind.
      by rewrite Hin, Hperm, transaction_run, find_user_absent.
    + intros message Hok.
      destruct (find_user (session_user_id session) (db w)) as [u|] eqn:Hu.
      * destruct (send_committed session now createId raw w input perm u
                    Hwf Hin Hperm Hu) as (_ & _ & _ & Hanswer).
        rewrite Hanswer in Hok. destruct (_ && _); [done|].
        injection Hok as <-. exists u.
        unfold find_user in Hu. apply head_Some_elem_of in Hu.
        apply list_elem_of_filter in Hu as [Hid Hu]. done.
      * unfold chatRouter.send, bind in Hok.
        by rewrite Hin, Hperm, transaction_run, Hu in Hok.
Qed.

Lemma author_left_joined_in_messages_inner_in_send_witness :
  (exists page,
     @chatRouter.messages (demo true) bob
       {| q_channelId := "g2"; q_count := Some 1; q_cursorType := None;
          q_cursor := None |} demo_world
     = (demo_world, Ok page)
     /\ Forall (fun r => m_author_id (hm_row r) = "dave" -> hm_author r = None)
          page)
  /\ (@chatRouter.send (demo true) {| session_user_id := "erin" |} 50 "cuid"
        {| s_channelId := "g1"; s_content := "hi"; s_attachment := None;
           s_reply := None; s_nonce := None |} demo_world).2
     = Err INTERNAL_SERVER_ERROR.
Proof.
  destruct (@author_left_joined_in_messages_inner_in_send (demo true))
    as [Hlist Hsend].
  split.
  - destruct (Hlist bob
                {| q_channelId := "g2"; q_count := Some 1;
                   q_cursorType := None; q_cursor := None |}
                demo_world
                (group {| g_id := 2; g_channel_id := "g2";
                          g_owner_id := "bob" |}))
      as (page & Hrun & Hnull & _); [cbn; lia|reflexivity|].
    exists page. split; [exact Hrun|].
    eapply Forall_impl; [exact Hnull|]. cbn. intros r Hr Hauthor.
    apply Hr. rewrite Hauthor. intros u Hu. set_unfold in Hu.
    destruct Hu as [->|[->|[->|[]]]]; cbn; discriminate.
  - edestruct (Hsend {| session_user_id := "erin" |} 50 "cuid"
                 {| s_channelId := "g1"; s_content := "hi";
                    s_attachment := None; s_reply := None; s_nonce := None |}
                 {| s_channelId := "g1"; s_content := "hi";
                    s_attachment := None; s_reply := None; s_nonce := None |}
                 demo_world) as [Hthrows _];
      [apply demo_db_wf|vm_compute; reflexivity..|].
    rewrite Hthrows; [reflexivity|].
    intros u Hu. cbn in Hu. set_unfold in Hu.
    destruct Hu as [->|[->|[->|[]]]]; cbn; discriminate.
Defined.

(** ** The open flag of a direct-message channel *)

Lemma no_closed_row (channel : string) (l : list DirectMessageInfo) :
  (Z.of_nat (length (filter (dm_closed_in channel) l)) =? 0) = true
  <-> Forall (fun i => ~ dm_closed_in channel i) l.
Proof.
  split.
  - intros Hlen. apply Z.eqb_eq in Hlen.
    induction l as [|i l IH]; [constructor|].
    rewrite filter_cons in Hlen.
    destruct (decide (dm_closed_in channel i)); cbn in Hlen; [lia|].
    constructor; [done|]. by apply IH.
  - intros Hall. by rewrite filter_unmatched.
Qed.

Lemma set_open_opens (channel : string) (l : list DirectMessageInfo) :
  Forall (fun i => ~ dm_closed_in channel i) (set_open channel <$> l).
Proof.
  apply Forall_fmap, Forall_forall. intros i _. cbn. unfold set_open.
  destruct (decide (dm_closed_in channel i)) as [Hc|Hc]; [|done].
  unfold dm_closed_in. cbn. by intros [_ ?].
Qed.

Lemma set_open_kept_or_opened (channel : string) (l : list DirectMessageInfo) :
  Forall2 kept_or_opened l (set_open channel <$> l).
Proof.
  apply Forall2_fmap_r, Forall_Forall2_diag, Forall_forall. intros i _.
  unfold set_open, kept_or_opened. cbn.
  destruct (decide (dm_closed_in channel i)) as [[_ Hc]|Hc]; [by right|by left].
Qed.

Lemma kept_or_opened_refl (l : list DirectMessageInfo) :
  Forall2 kept_or_opened l l.
Proof. apply Forall_Forall2_diag, Forall_forall. intros i _. by left. Qed.

Lemma kept_or_opened_open (channel : string) (l l' : list DirectMessageInfo) :
  Forall2 kept_or_opened l l' ->
  Forall (fun i => ~ dm_closed_in channel i) l ->
  Forall (fun i => ~ dm_closed_in channel i) l'.
Proof.
  induction 1 as [|i i' l l' Hi _ IH]; [done|].
  intros Hall. apply Forall_cons in Hall as [Hopen Hall].
  constructor; [|by apply IH].
  destruct Hi as [->|[_ ->]]; [done|].
  unfold dm_closed_in. cbn. by intros [_ ?].
Qed.

(** Well-formedness of the message ids is an invariant of the router. *)
Lemma step_wf `{Collaborators} (r : Request) (w : World) :
  messages_wf (db w) -> messages_wf (db (step r w)).
Proof.
  intros Hwf. destruct r as [s now c raw|s raw|s raw|s i|s now c|s now c|s c];
    cbn.
  - destruct (send_cases s now c raw w Hwf)
      as [(e & w' & He & _ & Hdb)|(input & perm & u & Hin & _ & _ & _ & Hperm & Hu)].
    + rewrite He. cbn.
      destruct Hdb as [->|(input & _ & ->)];
        [done|by apply store_after_inserts_wf].
    + destruct (send_committed s now c raw w input perm u Hwf Hin Hperm Hu)
        as (-> & _).
      unfold messages_wf, store_after_send, store_after_inserts.
      destruct perm; cbn; (apply Forall_app; split;
        [eapply Forall_impl; [exact Hwf|]; cbn; intros; lia
        |repeat constructor; cbn; lia]).
  - unfold chatRouter.messages, chatRouter.messages_input, bind, gets, ret, throw.
    destruct (_ && _); cbn; [|done].
    by destruct (checkChannelPermissions _ _ _).
  - unfold chatRouter.update, chatRouter.update_input, bind, throw.
    destruct (contentSchema _); cbn; [|done].
    destruct (_ =? 0); cbn;
      (unfold messages_wf; cbn; apply Forall_fmap;
       eapply Forall_impl; [exact Hwf|]; cbn; intros m Hm;
       by destruct (decide _)).
  - unfold chatRouter.delete, chatRouter.checkDeleteMessage, bind, gets, throw.
    destruct (find_message i (db w)) as [m|]; cbn; [|done].
    assert (messages_wf (with_messages
              (filter (fun m => m_id m <> i) (messages (db w)))
              (messages_insertId (db w)) (db w))) as Hdel.
    { unfold messages_wf. cbn. apply Forall_forall. intros x Hx.
      apply list_elem_of_filter in Hx as [_ Hx].
      by apply (proj1 (Forall_forall _ _) Hwf). }
    destruct (decide (m_author_id m = session_user_id s)); cbn; [done|].
    destruct (groups (db w)) as [|g gs]; cbn; [done|].
    by destruct (decide (g_owner_id g = session_user_id s)).
  - done.
  - done.
  - unfold chatRouter.type, bind, gets, throw.
    by destruct (find_user _ _).
Qed.

(** No request closes a row, and only a [send] opens one. *)
Lemma step_kept_or_opened `{Collaborators} (r : Request) (w : World) :
  messages_wf (db w) ->
  Forall2 kept_or_opened (directMessageInfos (db w))
    (directMessageInfos (db (step r w))).
Proof.
  intros Hwf. destruct r as [s now c raw|s raw|s raw|s i|s now c|s now c|s c];
    cbn.
  - destruct (send_cases s now c raw w Hwf)
      as [(e & w' & He & _ & Hdb)|(input & perm & u & Hin & _ & _ & _ & Hperm & Hu)].
    + rewrite He. cbn.
      destruct Hdb as [->|(input & _ & ->)]; apply kept_or_opened_refl.
    + destruct (send_committed s now c raw w input perm u Hwf Hin Hperm Hu)
        as (-> & _).
      unfold store_after_send, store_after_inserts.
      destruct perm; cbn;
        [apply set_open_kept_or_opened|apply kept_or_opened_refl].
  - unfold chatRouter.messages, chatRouter.messages_input, bind, gets, ret, throw.
    destruct (_ && _); cbn; [|apply kept_or_opened_refl].
    destruct (checkChannelPermissions _ _ _); apply kept_or_opened_refl.
  - unfold chatRouter.update, chatRouter.update_input, bind, throw.
    destruct (contentSchema _); cbn; [|apply kept_or_opened_refl].
    destruct (_ =? 0); cbn; apply kept_or_opened_refl.
  - unfold chatRouter.delete, chatRouter.checkDeleteMessage, bind, gets, throw.
    destruct (find_message i (db w)) as [m|]; cbn; [|apply kept_or_opened_refl].
    destruct (decide (m_author_id m = session_user_id s)); cbn;
      [apply kept_or_opened_refl|].
    destruct (groups (db w)) as [|g gs]; cbn; [apply kept_or_opened_refl|].
    destruct (decide (g_owner_id g = session_user_id s));
      apply kept_or_opened_refl.
  - apply kept_or_opened_refl.
  - apply kept_or_opened_refl.
  - unfold chatRouter.type, bind, gets, throw.
    destruct (find_user _ _); apply kept_or_opened_refl.
Qed.

Lemma kept_or_opened_trans (l1 l2 l3 : list DirectMessageInfo) :
  Forall2 kept_or_opened l1 l2 -> Forall2 kept_or_opened l2 l3 ->
  Forall2 kept_or_opened l1 l3.
Proof.
  apply Forall2_trans. intros i j k [->|[Hi ->]] [->|[Hj ->]].
  - by left.
  - by right.
  - by right.
  - cbn in Hj. discriminate.
Qed.

(** What a [send] published, on a well-formed store. *)
Lemma send_published `{Collaborators} (session : Session) (now : Z)
    (createId : string) (raw : SendInput) (w : World) :
  messages_wf (db w) ->
  (directMessageInfos (db (step (Send session now createId raw) w))
   = directMessageInfos (db w)
   /\ published (Send session now createId raw) w = [])
  \/ exists input perm u,
       s_channelId input = s_channelId raw
       /\ checkChannelPermissions (s_channelId raw) session (db w) = Ok perm
       /\ find_user (session_user_id session) (db w) = Some u
       /\ db (step (Send session now createId raw) w)
          = store_after_send perm session now createId input (db w)
       /\ published (Send session now createId raw) w
          = match perm with
            | dm data =>
                if opens_dm perm (s_channelId raw) (db w)
                then [open_dm [dm_to_user_id data] (dm_channel_id data)
                        (userProfile u) 1]
                else []
            | group _ => []
            end
            ++ [message_sent [s_channelId raw]
                  (sent_message perm session now createId input (db w) u)].
Proof.
  intros Hwf. unfold published. cbn.
  destruct (send_cases session now createId raw w Hwf)
    as [(e & w' & He & Hframe & Hdb)|(input & perm & u & Hin & Hc & _ & _ & Hperm & Hu)].
  - left. rewrite He. cbn. split.
    + by destruct Hdb as [->|(input & _ & ->)].
    + rewrite Hframe. cbn. by rewrite drop_all.
  - right. exists input, perm, u.
    destruct (send_committed session now createId raw w input perm u
                Hwf Hin Hperm Hu) as (Hdb & Hably & _).
    rewrite Hably, drop_app_length, Hdb, <- Hc. done.
Qed.

(** A [send] into a channel publishes "channel opened" exactly when it took
    the channel from not open to open. *)
Lemma send_announces_iff `{Collaborators} (session : Session) (now : Z)
    (createId : string) (raw : SendInput) (w : World) :
  messages_wf (db w) ->
  announces_open (s_channelId raw) (Send session now createId raw) w = true
  <-> ~ channel_open (s_channelId raw) (db w)
      /\ channel_open (s_channelId raw)
           (db (step (Send session now createId raw) w)).
Proof.
  intros Hwf. unfold announces_open. rewrite bool_decide_eq_true_2 by done.
  rewrite andb_true_l.
  destruct (send_published session now createId raw w Hwf)
    as [[Hrows ->]|(input & perm & u & Hc & _ & _ & -> & ->)].
  - unfold channel_open. rewrite Hrows. cbn. split; [done|tauto].
  - unfold channel_open, store_after_send, store_after_inserts.
    destruct perm as [data|g]; cbn.
    + rewrite Hc.
      destruct (Z.of_nat _ =? 0) eqn:Hlen; cbn.
      * apply no_closed_row in Hlen. split; [done|tauto].
      * split; [|done]. intros _. split; [|apply set_open_opens].
        intros Hopen. apply no_closed_row in Hopen. congruence.
    + split; [done|tauto].
Qed.

(** C6: on a well-formed store, (1) a [send] into the channel publishes
    "channel opened" exactly when it took the channel from not open to open,
    and the event then goes to the topic of the recipient the permission
    check named; (2) no request of the router takes a row of
    [directMessageInfos] from open back to closed; (3) over any trace of
    requests at most one [send] into the channel publishes "channel opened",
    none does once the channel is open, and an open channel stays open. *)
Theorem dm_opens_once `{Collaborators} (channel : string) (w : World) :
  messages_wf (db w) ->
  (forall session now createId raw,
     s_channelId raw = channel ->
     (announces_open channel (Send session now createId raw) w = true
      <-> ~ channel_open channel (db w)
          /\ channel_open channel (db (step (Send session now createId raw) w)))
     /\ (forall e, e ∈ published (Send session now createId raw) w ->
           is_open_dm e = true ->
           exists data u,
             checkChannelPermissions channel session (db w) = Ok (dm data)
             /\ find_user (session_user_id session) (db w) = Some u
             /\ e = open_dm [dm_to_user_id data] (dm_channel_id data)
                      (userProfile u) 1))
  /\ (forall r, Forall2 kept_or_opened (directMessageInfos (db w))
                  (directMessageInfos (db (step r w))))
  /\ (forall reqs,
        (announcements channel reqs w <= 1)%nat
        /\ (channel_open channel (db w) ->
            announcements channel reqs w = 0%nat
            /\ channel_open channel (db (serve reqs w)))
        /\ Forall2 kept_or_opened (directMessageInfos (db w))
             (directMessageInfos (db (serve reqs w)))).
Proof.
  intros Hwf. split; [|split].
  - intros session now createId raw <-. split; [by apply send_announces_iff|].
    intros e He Hopen.
    destruct (send_published session now createId raw w Hwf)
      as [[_ Hnone]|(input & perm & u & _ & Hperm & Hu & _ & Hpub)].
    + rewrite Hnone in He. by apply elem_of_nil in He.
    + rewrite Hpub in He. apply elem_of_app in He as [He|He].
      * destruct perm as [data|g]; [|by apply elem_of_nil in He].
        destruct (opens_dm _ _ _); [|by apply elem_of_nil in He].
        apply list_elem_of_singleton in He as ->. by exists data, u.
      * apply list_elem_of_singleton in He as ->. discriminate.
  - intros r. by apply step_kept_or_opened.
  - intros reqs. revert w Hwf.
    assert (forall reqs w, messages_wf (db w) ->
              channel_open channel (db w) ->
              announcements channel reqs w = 0%nat
              /\ channel_open channel (db (serve reqs w))) as Hopen.
    { clear reqs. induction reqs as [|r reqs IH]; intros w Hwf Ho; [done|].
      cbn. destruct (IH (step r w)) as [-> Hafter].
      - by apply step_wf.
      - eapply kept_or_opened_open; [by apply step_kept_or_opened|done].
      - split; [|done].
        destruct (announces_open channel r w) eqn:Ha; [|done].
        destruct r as [s now c raw| | | | | |]; cbn in Ha; try done.
        apply andb_true_iff in Ha as [Hc Ha].
        apply bool_decide_eq_true in Hc as <-.
        assert (announces_open (s_channelId raw) (Send s now c raw) w = true)
          as Hann.
        { unfold announces_open. rewrite bool_decide_eq_true_2 by done.
          by rewrite Ha. }
        apply send_announces_iff in Hann as [Hno _]; done. }
    induction reqs as [|r reqs IH]; intros w Hwf.
    + cbn. split; [lia|]. split; [done|apply kept_or_opened_refl].
    + destruct (IH (step r w) (step_wf r w Hwf)) as (Hle & _ & Hrows).
      split; [|split].
      * cbn. destruct (announces_open channel r w) eqn:Ha; [|lia].
        destruct r as [s now c raw| | | | | |]; cbn in Ha; try done.
        pose proof Ha as Ha'.
        apply andb_true_iff in Ha' as [Hc _].
        apply bool_decide_eq_true in Hc. subst channel.
        assert (announces_open (s_channelId raw) (Send s now c raw) w = true)
          as Hann by (unfold announces_open; exact Ha).
        apply send_announces_iff in Hann as [_ Hnow]; [|done].
        destruct (Hopen reqs (step (Send s now c raw) w)) as [-> _];
          [by apply step_wf|done|lia].
      * intros Ho. by apply Hopen.
      * cbn. eapply kept_or_opened_trans; [|exact Hrows].
        by apply step_kept_or_opened.
Qed.

Lemma dm_opens_once_witness :
  channel_open "d1"
    (db (@step (demo true)
           (Send alice 50 "cuid"
              {| s_channelId := "d1"; s_content := "yo"; s_attachment := None;
                 s_reply := None; s_nonce := None |}) demo_world))
  /\ (@announcements (demo true) "d1"
        [Send alice 50 "c1"
           {| s_channelId := "d1"; s_content := "yo"; s_attachment := None;
              s_reply := None; s_nonce := None |};
         Send bob 51 "c2"
           {| s_channelId := "d1"; s_content := "hey"; s_attachment := None;
              s_reply := None; s_nonce := None |};
         Send alice 52 "c3"
           {| s_channelId := "d1"; s_content := "again"; s_attachment := None;
              s_reply := None; s_nonce := None |}] demo_world <= 1)%nat.
Proof.
  destruct (@dm_opens_once (demo true) "d1" demo_world demo_db_wf)
    as (Hsend & _ & Htrace).
  split.
  - apply (Hsend alice 50 "cuid"
             {| s_channelId := "d1"; s_content := "yo"; s_attachment := None;
                s_reply := None; s_nonce := None |}); [reflexivity|].
    vm_compute. reflexivity.
  - apply Htrace.
Defined.

(** When alice and then bob write into the unopened channel, the opening is
    announced exactly once: by alice's message, to bob. *)
Example demo_dm_trace :
  @announcements (demo true) "d1"
    [Send alice 50 "c1"
       {| s_channelId := "d1"; s_content := "yo"; s_attachment := None;
          s_reply := None; s_nonce := None |};
     Send bob 51 "c2"
       {| s_channelId := "d1"; s_content := "hey"; s_attachment := None;
          s_reply := None; s_nonce := None |}] demo_world = 1%nat
  /\ head (@published (demo true)
             (Send alice 50 "c1"
                {| s_channelId := "d1"; s_content := "yo";
                   s_attachment := None; s_reply := None; s_nonce := None |})
             demo_world)
     = Some (open_dm ["bob"] "d1"
               {| id := "alice"; name := "Alice"; image := None |} 1).
Proof. split; vm_compute; reflexivity. Qed.

(** ** Further properties of the procedures *)

(** *** [send]: refusals, cursor, fanout *)

(** When the permission check throws, [send] throws the same error and
    leaves the world as it was: no row, no event, no cursor, no notifier
    call. *)
Theorem send_permission_error_propagates `{Collaborators} (session : Session)
    (now : Z) (createId : string) (raw input : SendInput) (w : World)
    (e : TRPCErrorCode) :
  chatRouter.send_input raw w = (w, Ok input) ->
  checkChannelPermissions (s_channelId raw) session (db w) = Err e ->
  chatRouter.send session now createId raw w = (w, Err e).
Proof.
  intros Hin Hperm. unfold chatRouter.send, bind. rewrite Hin.
  assert (s_channelId input = s_channelId raw) as ->.
  { rewrite send_input_run in Hin.
    destruct (contentSchema _); [destruct (_ || _)|]; by inversion Hin. }
  by rewrite Hperm.
Qed.

Lemma send_permission_error_propagates_witness :
  @chatRouter.send (demo true) alice 50 "cuid"
    {| s_channelId := "nowhere"; s_content := "hi"; s_attachment := None;
       s_reply := None; s_nonce := None |} demo_world
  = (demo_world, Err NOT_FOUND).
Proof.
  eapply (@send_permission_error_propagates (demo true));
    vm_compute; reflexivity.
Defined.

(** After a [send] that succeeds, the sender's cursor for the channel is the
    timestamp of the new message, so that the sender's next [checkout] of
    the channel answers with it; the cursors of other (channel, user) pairs
    are as before. *)
Theorem send_advances_own_cursor `{Collaborators} (session : Session)
    (now now' : Z) (createId : string) (raw : SendInput) (w : World)
    (message : SentMessage) :
  messages_wf (db w) ->
  (chatRouter.send session now createId raw w).2 = Ok message ->
  let w' := (chatRouter.send session now createId raw w).1 in
  m_timestamp (sm_row message) = now
  /\ redis w' !! (s_channelId raw, session_user_id session) = Some now
  /\ (chatRouter.checkout session now' (s_channelId raw) w').2 = Ok (Some now)
  /\ (forall k, k <> (s_channelId raw, session_user_id session) ->
        redis w' !! k = redis w !! k).
Proof.
  intros Hwf Hok. cbn zeta.
  destruct (send_cases session now createId raw w Hwf)
    as [(e & w0 & He & _)|(input & perm & u & Hin & Hc & _ & _ & Hperm & Hu)].
  - rewrite He in Hok. discriminate.
  - destruct (send_committed session now createId raw w input perm u
                Hwf Hin Hperm Hu) as (_ & _ & Hredis & Hanswer).
    rewrite Hanswer in Hok. destruct (_ && _); [done|].
    injection Hok as <-. cbn. unfold getLastRead. cbn.
    rewrite Hredis, Hc. rewrite lookup_insert_eq.
    repeat split; try done. intros k Hk. by rewrite lookup_insert_ne.
Qed.

Lemma send_advances_own_cursor_witness :
  redis (@chatRouter.send (demo true) alice 50 "cuid"
           {| s_channelId := "g1"; s_content := "hi"; s_attachment := None;
              s_reply := None; s_nonce := None |} demo_world).1
    !! ("g1", "alice") = Some 50.
Proof.
  edestruct (@send_advances_own_cursor (demo true) alice 50 60 "cuid"
               {| s_channelId := "g1"; s_content := "hi";
                  s_attachment := None; s_reply := None; s_nonce := None |}
               demo_world) as (_ & Hcursor & _);
    [apply demo_db_wf|vm_compute; reflexivity|].
  exact Hcursor.
Defined.

(** A [send] that succeeds has published exactly one "message sent" event,
    as the last event of the call, to the topic of the channel and carrying
    the very message the caller receives; that message echoes the nonce. *)
Theorem send_publishes_the_answer `{Collaborators} (session : Session)
    (now : Z) (createId : string) (raw : SendInput) (w : World)
    (message : SentMessage) :
  messages_wf (db w) ->
  (chatRouter.send session now createId raw w).2 = Ok message ->
  let sent := published (Send session now createId raw) w in
  last sent = Some (message_sent [s_channelId raw] message)
  /\ filter (fun e => is_open_dm e = false) sent
     = [message_sent [s_channelId raw] message]
  /\ sm_nonce message = s_nonce raw
  /\ m_channel_id (sm_row message) = s_channelId raw
  /\ m_author_id (sm_row message) = session_user_id session.
Proof.
  intros Hwf Hok. cbn zeta.
  destruct (send_cases session now createId raw w Hwf)
    as [(e & w0 & He & _)|(input & perm & u & Hin & Hc & _ & _ & Hperm & Hu)].
  - rewrite He in Hok. discriminate.
  - destruct (send_committed session now createId raw w input perm u
                Hwf Hin Hperm Hu) as (_ & Hably & _ & Hanswer).
    rewrite Hanswer in Hok. destruct (_ && _); [done|].
    injection Hok as <-.
    unfold published. cbn [step]. rewrite Hably, drop_app_length, Hc.
    assert (s_nonce input = s_nonce raw) as Hn.
    { rewrite send_input_run in Hin.
      destruct (contentSchema _); [destruct (_ || _)|]; by inversion Hin. }
    rewrite last_snoc, filter_app. cbn. rewrite Hn, Hc.
    repeat split; try done.
    destruct perm as [data|g];
      [destruct (opens_dm (dm data) (s_channelId raw) (db w))|]; done.
Qed.

Lemma send_publishes_the_answer_witness :
  exists message,
    last (@published (demo true)
            (Send alice 50 "cuid"
               {| s_channelId := "d1"; s_content := "hi"; s_attachment := None;
                  s_reply := None; s_nonce := Some 3 |}) demo_world)
    = Some (message_sent ["d1"] message)
    /\ sm_nonce message = Some 3.
Proof.
  eexists.
  edestruct (@send_publishes_the_answer (demo true) alice 50 "cuid"
               {| s_channelId := "d1"; s_content := "hi";
                  s_attachment := None; s_reply := None; s_nonce := Some 3 |}
               demo_world) as (Hlast & _ & Hnonce & _);
    [apply demo_db_wf|vm_compute; reflexivity|].
  split; [exact Hlast|exact Hnonce].
Defined.

(** *** [send]: the reply snapshot and the next listing *)

Lemma head_filter_snoc {A} (P : A -> Prop) `{!forall x, Decision (P x)}
    (l : list A) (x : A) :
  head (filter P (l ++ [x]))
  = match head (filter P l) with
    | Some y => Some y
    | None => if decide (P x) then Some x else None
    end.
Proof.
  rewrite filter_app, (filter_cons _ x), filter_nil.
  destruct (filter P l) as [|y k]; [|done].
  by destruct (decide (P x)).
Qed.

(** Lookups after the inserts of the transaction. *)
Lemma find_message_after_inserts (session : Session) (now : Z)
    (createId : string) (input : SendInput) (d : DB) (k : Z) :
  find_message k (store_after_inserts session now createId input d)
  = match find_message k d with
    | Some p => Some p
    | None =>
        if decide (messages_insertId d = k)
        then Some (inserted_row session now createId input d) else None
    end.
Proof. unfold find_message. cbn. by rewrite head_filter_snoc. Qed.

Lemma find_message_counter (d : DB) :
  messages_wf d -> find_message (messages_insertId d) d = None.
Proof.
  intros Hwf. apply find_message_absent. intros m Hm.
  apply (proj1 (Forall_forall _ _) Hwf) in Hm. lia.
Qed.

(** The reply snapshot of [send].  On a well-formed store, a [send] that
    succeeds in replying to a stored message answers with that message's
    content and with the profile of its author, or a null [reply_user] when
    that author has no user row.  A reply to the very id the store is about
    to assign is joined with the new message itself. *)
Theorem send_reply_snapshot `{Collaborators} (session : Session) (now : Z)
    (createId : string) (raw : SendInput) (w : World)
    (message : SentMessage) (k : Z) :
  messages_wf (db w) ->
  (chatRouter.send session now createId raw w).2 = Ok message ->
  s_reply raw = Some k ->
  (forall p, find_message k (db w) = Some p ->
     sm_reply_message message = Some (m_content p)
     /\ sm_reply_user message
        = userProfile <$> find_user (m_author_id p) (db w))
  /\ (k = messages_insertId (db w) ->
      sm_reply_message message = Some (m_content (sm_row message))
      /\ sm_reply_user message = Some (sm_author message)).
Proof.
  intros Hwf Hok Hreply.
  destruct (send_cases session now createId raw w Hwf)
    as [(e & w0 & He & _)|(input & perm & u & Hin & _ & _ & Hr & Hperm & Hu)].
  { rewrite He in Hok. discriminate. }
  destruct (send_committed session now createId raw w input perm u
              Hwf Hin Hperm Hu) as (_ & _ & _ & Hanswer).
  rewrite Hanswer in Hok. destruct (_ && _); [done|].
  injection Hok as <-. cbn.
  unfold reply_user_of, reply_message_of. cbn.
  rewrite Hr, Hreply, find_message_after_inserts.
  split.
  - intros p ->. done.
  - intros ->. rewrite find_message_counter by done.
    rewrite decide_True by done. cbn. unfold find_user in *. cbn.
    by rewrite Hu.
Qed.

Lemma send_reply_snapshot_witness :
  exists message,
    (@chatRouter.send (demo true) bob 50 "cuid"
       {| s_channelId := "g2"; s_content := "welcome"; s_attachment := None;
          s_reply := Some 2; s_nonce := None |} demo_world).2 = Ok message
    /\ sm_reply_message message = Some "hello"
    /\ sm_reply_user message
       = Some {| id := "carol"; name := "Carol"; image := None |}.
Proof.
  eexists. split; [vm_compute; reflexivity|].
  edestruct (@send_reply_snapshot (demo true) bob 50 "cuid"
               {| s_channelId := "g2"; s_content := "welcome";
                  s_attachment := None; s_reply := Some 2; s_nonce := None |}
               demo_world) as [Hstored _];
    [apply demo_db_wf|vm_compute; reflexivity|reflexivity|].
  apply (Hstored (message 2 "carol" "hello" "g2" None 20)). reflexivity.
Defined.

(** The newest message of a window heads the page. *)
Lemma select_messages_head (channelId : string) (cursorType : CursorType)
    (cursor : option Z) (count : Z) (d : DB) (x : Message) :
  1 <= count ->
  x ∈ messages d -> m_channel_id x = channelId ->
  cursor_cond cursorType cursor x ->
  (forall m, m ∈ messages d -> m_channel_id m = channelId ->
     cursor_cond cursorType cursor m ->
     m = x \/ m_timestamp m < m_timestamp x) ->
  head (select_messages channelId cursorType cursor count d)
  = Some (hydrate d x).
Proof.
  intros Hcount Hx Hc Hk Hnewest. unfold select_messages.
  set (l := merge_sort _ _).
  assert (hydrate d x ∈ l) as Hin.
  { unfold l. rewrite merge_sort_Permutation.
    apply list_elem_of_filter. split; [done|].
    apply list_elem_of_fmap. by exists x. }
  assert (forall r, r ∈ l ->
            r = hydrate d x \/ m_timestamp (hm_row r) < m_timestamp x) as Hl.
  { intros r Hr. unfold l in Hr. rewrite merge_sort_Permutation in Hr.
    apply list_elem_of_filter in Hr as [[Hrc Hrk] Hr].
    apply list_elem_of_fmap in Hr as (m & -> & Hm). cbn in *.
    destruct (Hnewest m Hm Hrc Hrk) as [->|Hlt]; [by left|by right]. }
  assert (StronglySorted newer_first l) as Hsorted
    by apply (StronglySorted_merge_sort _).
  rewrite limit_take by done.
  destruct l as [|h t]; [by apply elem_of_nil in Hin|].
  destruct (Z.to_nat count) as [|n] eqn:Hn; [lia|]. cbn. f_equal.
  destruct (Hl h) as [->|Hlt]; [by left|done|].
  apply StronglySorted_cons in Hsorted as [Hall _].
  apply elem_of_cons in Hin as [<-|Hin]; [done|].
  apply (proj1 (Forall_forall _ _) Hall) in Hin.
  unfold newer_first in Hin. cbn in Hin. lia.
Qed.

(** The joins of a row read [messages], [users] and [attachments] only. *)
Lemma hydrate_ext (d d' : DB) (m : Message) :
  messages d' = messages d -> users d' = users d ->
  attachments d' = attachments d ->
  hydrate d' m = hydrate d m.
Proof.
  intros Hm Hu Ha.
  unfold hydrate, reply_user_of, reply_message_of, find_message, find_user,
    find_attachment.
  by rewrite Hm, Hu, Ha.
Qed.

(** What [send] answered is what the next listing of the channel shows
    first.  On a well-formed store, after a [send] that succeeded with a
    timestamp later than every message of the channel and an attachment id
    not yet in use, a [messages] call without cursor for at least one row,
    by any identity the channel accepts, is headed by the new message, with
    the author, attachment and reply snapshot of the answer. *)
Theorem sent_message_heads_the_listing `{Collaborators}
    (session reader : Session) (now : Z) (createId : string)
    (raw : SendInput) (q : MessagesInput) (w : World)
    (message : SentMessage) (perm : ChannelPermission) :
  messages_wf (db w) ->
  (chatRouter.send session now createId raw w).2 = Ok message ->
  let w' := (chatRouter.send session now createId raw w).1 in
  (forall m, m ∈ messages (db w) -> m_channel_id m = s_channelId raw ->
     m_timestamp m < now) ->
  (forall a, a ∈ attachments (db w) -> a_id a <> createId) ->
  q_channelId q = s_channelId raw -> q_cursor q = None ->
  1 <= default 50 (q_count q) <= 50 ->
  checkChannelPermissions (s_channelId raw) reader (db w') = Ok perm ->
  exists r page,
    chatRouter.messages reader q w' = (w', Ok (r :: page))
    /\ hm_row r = sm_row message
    /\ hm_author r = Some (sm_author message)
    /\ hm_attachment r = sm_attachment message
    /\ hm_reply_message r = sm_reply_message message
    /\ hm_reply_user r = sm_reply_user message.
Proof.
  intros Hwf Hok w' Hnewest Hfresh Hq Hcursor Hcount Hreader.
  destruct (send_cases session now createId raw w Hwf)
    as [(e & w0 & He & _)|(input & perm0 & u & Hin & Hc & Hatt & _ & Hperm & Hu)].
  { rewrite He in Hok. discriminate. }
  destruct (send_committed session now createId raw w input perm0 u
              Hwf Hin Hperm Hu) as (Hdb & _ & _ & Hanswer).
  rewrite Hanswer in Hok. destruct (_ && _); [done|].
  injection Hok as <-. fold w' in Hdb.
  set (row := inserted_row session now createId input (db w)).
  set (d1 := store_after_inserts session now createId input (db w)).
  assert (messages (db w') = messages (db w) ++ [row]
          /\ users (db w') = users (db w)
          /\ attachments (db w') = attachments d1) as (Hm' & Hu' & Ha').
  { rewrite Hdb. unfold store_after_send. by destruct perm0. }
  assert (hydrate (db w') row = hydrate d1 row) as Hhyd.
  { apply hydrate_ext; [by rewrite Hm'|by rewrite Hu'|done]. }
  assert (head (select_messages (q_channelId q)
                  (default before (q_cursorType q)) (q_cursor q)
                  (default 50 (q_count q)) (db w'))
          = Some (hydrate (db w') row)) as Hhead.
  { apply select_messages_head.
    - lia.
    - rewrite Hm'. apply elem_of_app. right. by apply list_elem_of_singleton.
    - cbn. by rewrite Hq.
    - by rewrite Hcursor.
    - intros m Hm Hmc _. rewrite Hm' in Hm.
      apply elem_of_app in Hm as [Hm|Hm].
      + right. cbn. apply Hnewest; [done|]. by rewrite <- Hq.
      + left. by apply list_elem_of_singleton in Hm. }
  rewrite (messages_run reader q w' perm); [|lia|by rewrite Hq].
  destruct (select_messages _ _ _ _ _) as [|r page]; [done|].
  injection Hhead as ->. exists (hydrate (db w') row), page.
  split; [done|]. rewrite Hhyd. cbn.
  unfold find_user at 1. cbn. fold (find_user (session_user_id session) (db w)).
  rewrite Hu. repeat split.
  unfold find_attachment. cbn. rewrite Hatt.
  destruct (s_attachment raw) as [up|]; cbn; [|done].
  rewrite head_filter_snoc, filter_unmatched, decide_True; [done..|].
  apply Forall_forall. intros a Ha. by apply Hfresh.
Qed.

Lemma sent_message_heads_the_listing_witness :
  exists r page,
    @chatRouter.messages (demo true) bob
      {| q_channelId := "g2"; q_count := Some 2; q_cursorType := None;
         q_cursor := None |}
      (@chatRouter.send (demo true) carol 50 "cuid"
         {| s_channelId := "g2"; s_content := "look";
            s_attachment := Some {| up_rest := "image:cat.png";
                                    up_width := Some 640;
                                    up_height := None |};
            s_reply := Some 3; s_nonce := None |} demo_world).1
    = ((@chatRouter.send (demo true) carol 50 "cuid"
          {| s_channelId := "g2"; s_content := "look";
             s_attachment := Some {| up_rest := "image:cat.png";
                                     up_width := Some 640;
                                     up_height := None |};
             s_reply := Some 3; s_nonce := None |} demo_world).1,
       Ok (r :: page))
    /\ m_content (hm_row r) = "look".
Proof.
  edestruct (@sent_message_heads_the_listing (demo true) carol bob 50 "cuid"
               {| s_channelId := "g2"; s_content := "look";
                  s_attachment := Some {| up_rest := "image:cat.png";
                                          up_width := Some 640;
                                          up_height := None |};
                  s_reply := Some 3; s_nonce := None |}
               {| q_channelId := "g2"; q_count := Some 2;
                  q_cursorType := None; q_cursor := None |}
               demo_world)
    as (r & page & Hrun & Hrow & _);
    [apply demo_db_wf|vm_compute; reflexivity| | |reflexivity|reflexivity
    |cbn; lia|vm_compute; reflexivity|].
  - intros m Hm Hc. cbn in Hm. set_unfold in Hm.
    destruct Hm as [->|[->|[->|[->|[]]]]]; cbn in *; try lia; discriminate.
  - intros a Ha. cbn in Ha. by apply elem_of_nil in Ha.
  - exists r, page. split; [exact Hrun|]. by rewrite Hrow.
Defined.

(** *** [update] *)

Lemma find_message_fmap (f : Message -> Message) (k : Z) (d : DB) (next : Z) :
  (forall m, m_id (f m) = m_id m) ->
  find_message k (with_messages (f <$> messages d) next d)
  = f <$> find_message k d.
Proof.
  intros Hf. unfold find_message. cbn.
  induction (messages d) as [|m l IH]; [done|].
  rewrite fmap_cons, !filter_cons, Hf.
  destruct (decide (m_id m = k)); done.
Qed.

Lemma find_message_elem (k : Z) (d : DB) (m : Message) :
  find_message k d = Some m -> m ∈ messages d /\ m_id m = k.
Proof.
  unfold find_message. intros Hm. apply head_Some_elem_of in Hm.
  apply list_elem_of_filter in Hm. tauto.
Qed.

(** [update] when the first row with the id matches the caller and the
    channel. *)
Lemma update_matched `{Collaborators} (session : Session)
    (raw : UpdateInput) (w : World) (content : string) (m : Message) :
  contentSchema (e_content raw) = Some content ->
  find_message (e_messageId raw) (db w) = Some m ->
  m_author_id m = session_user_id session ->
  m_channel_id m = e_channelId raw ->
  chatRouter.update session raw w
  = ({| db := with_messages
                ((fun m0 => if decide (update_where (e_messageId raw)
                                         (session_user_id session)
                                         (e_channelId raw) m0)
                            then set_content content m0 else m0)
                   <$> messages (db w))
                (messages_insertId (db w)) (db w);
        redis := redis w;
        ably := ably w ++ [message_updated [e_channelId raw] (e_messageId raw)
                             content (e_channelId raw)];
        inworld := inworld w |}, Ok tt).
Proof.
  intros Hc Hm Hauthor Hchannel.
  destruct (find_message_elem _ _ _ Hm) as [Hin Hid].
  unfold chatRouter.update, chatRouter.update_input, bind. rewrite Hc. cbn.
  destruct (filter _ (messages (db w))) as [|x l] eqn:Hfilter; [|done].
  assert (m ∈ filter (update_where (e_messageId raw)
                        (session_user_id session) (e_channelId raw))
                (messages (db w))) as Hmatch
    by (by apply list_elem_of_filter).
  rewrite Hfilter in Hmatch. by apply elem_of_nil in Hmatch.
Qed.

(** An [update] by the author, in the channel of the message: the content
    of the message becomes the parsed content, every other message reads as
    before, no row is added or removed, and "message updated" is published to
    the channel with the id and the new content. *)
Theorem update_by_author `{Collaborators} (session : Session)
    (raw : UpdateInput) (w : World) (content : string) (m : Message) :
  contentSchema (e_content raw) = Some content ->
  find_message (e_messageId raw) (db w) = Some m ->
  m_author_id m = session_user_id session ->
  m_channel_id m = e_channelId raw ->
  let out := chatRouter.update session raw w in
  out.2 = Ok tt
  /\ find_message (e_messageId raw) (db out.1) = Some (set_content content m)
  /\ (forall j, j <> e_messageId raw ->
        find_message j (db out.1) = find_message j (db w))
  /\ m_id <$> messages (db out.1) = m_id <$> messages (db w)
  /\ ably out.1
     = ably w ++ [message_updated [e_channelId raw] (e_messageId raw) content
                    (e_channelId raw)]
  /\ redis out.1 = redis w.
Proof.
  intros Hc Hm Hauthor Hchannel. cbn zeta.
  destruct (find_message_elem _ _ _ Hm) as [Hin Hid].
  rewrite (update_matched session raw w content m) by done.
  cbn [fst snd db ably redis].
  split; [done|]. split; [|split; [|split]].
  - rewrite find_message_fmap by (intros y; by destruct (decide _)).
    rewrite Hm. cbn. by rewrite decide_True.
  - intros j Hj.
    rewrite find_message_fmap by (intros y; by destruct (decide _)).
    destruct (find_message j (db w)) as [y|] eqn:Hy; [|done]. cbn.
    destruct (find_message_elem _ _ _ Hy) as [_ Hyid].
    rewrite decide_False; [done|]. intros (? & _). congruence.
  - cbn. rewrite <- list_fmap_compose. apply list_fmap_ext.
    intros i y _. cbn. by destruct (decide _).
  - done.
Qed.

Lemma update_by_author_witness :
  find_message 1
    (db (@chatRouter.update (demo true) alice
           {| e_messageId := 1; e_channelId := "g1"; e_content := "hi all" |}
           demo_world).1)
  = Some (message 1 "alice" "hi all" "g1" None 10).
Proof.
  edestruct (@update_by_author (demo true) alice
               {| e_messageId := 1; e_channelId := "g1";
                  e_content := "hi all" |} demo_world)
    as (_ & Hfound & _); [reflexivity..|].
  exact Hfound.
Defined.

(** [update] parses the content with [contentSchema] alone: where that
    schema lets the empty text through, the author of a message without
    attachment can empty it, and the store then holds a message with neither
    text nor attachment, which [send] never inserts. *)
Theorem update_can_empty_a_message `{Collaborators} (session : Session)
    (raw : UpdateInput) (w : World) (m : Message) :
  contentSchema (e_content raw) = Some "" ->
  find_message (e_messageId raw) (db w) = Some m ->
  m_author_id m = session_user_id session ->
  m_channel_id m = e_channelId raw ->
  m_attachment_id m = None ->
  (chatRouter.update session raw w).2 = Ok tt
  /\ ~ content_ok (db (chatRouter.update session raw w).1).
Proof.
  intros Hc Hm Hauthor Hchannel Hatt.
  rewrite (update_matched session raw w "" m) by done.
  cbn [fst snd db]. split; [done|]. intros Hinv.
  assert (find_message (e_messageId raw)
            (with_messages
               ((fun m0 => if decide (update_where (e_messageId raw)
                                        (session_user_id session)
                                        (e_channelId raw) m0)
                           then set_content "" m0 else m0)
                  <$> messages (db w))
               (messages_insertId (db w)) (db w))
          = Some (set_content "" m)) as Hfound.
  { rewrite find_message_fmap by (intros y; by destruct (decide _)).
    rewrite Hm. cbn. rewrite decide_True; [done|].
    by destruct (find_message_elem _ _ _ Hm). }
  apply find_message_elem in Hfound as [Hin _].
  pose proof (proj1 (Forall_forall _ _) Hinv _ Hin eq_refl) as Hsome.
  cbn in Hsome. rewrite Hatt in Hsome. by apply is_Some_None in Hsome.
Qed.

Lemma update_can_empty_a_message_witness :
  ~ content_ok
      (db (@chatRouter.update (demo true) alice
             {| e_messageId := 1; e_channelId := "g1"; e_content := "" |}
             demo_world).1).
Proof.
  eapply (@update_can_empty_a_message (demo true) alice
            {| e_messageId := 1; e_channelId := "g1"; e_content := "" |}
            demo_world); reflexivity.
Defined.

(** *** Invariants of the store *)

Lemma send_input_not_empty `{Collaborators} (raw input : SendInput)
    (w : World) :
  chatRouter.send_input raw w = (w, Ok input) ->
  s_content input = "" -> is_Some (s_attachment input).
Proof.
  rewrite send_input_run. intros Hin Hempty.
  destruct (contentSchema _) as [content|]; [|done].
  destruct (negb _ || _) eqn:Hb; inversion Hin; subst input; cbn in *.
  subst content. cbn in Hb. by destruct (s_attachment raw).
Qed.

(** Every procedure but [update] keeps the rule that a stored message
    without text has an attachment: over any trace of requests without an
    [update], a well-formed store that satisfies it still does. *)
Theorem content_rule_kept_without_update `{Collaborators}
    (reqs : list Request) (w : World) :
  Forall (fun r => is_update r = false) reqs ->
  messages_wf (db w) -> content_ok (db w) ->
  content_ok (db (serve reqs w)).
Proof.
  intros Hreqs. revert w.
  induction Hreqs as [|r reqs Hr _ IH]; intros w Hwf Hok; [done|].
  cbn. apply IH; [by apply step_wf|].
  destruct r as [s now c raw|s raw|s raw|s i|s now c|s now c|s c];
    cbn in *; try done.
  - assert (forall input,
              chatRouter.send_input raw w = (w, Ok input) ->
              content_ok (store_after_inserts s now c input (db w))) as Hins.
    { intros input Hin.
      unfold content_ok. cbn. apply Forall_app. split; [done|].
      repeat constructor. cbn. intros Hempty.
      destruct (send_input_not_empty raw input w Hin Hempty) as [up ->].
      by eexists. }
    destruct (send_cases s now c raw w Hwf)
      as [(e & w' & He & _ & Hdb)|(input & perm & u & Hin & _ & _ & _ & Hperm & Hu)].
    + rewrite He. cbn.
      destruct Hdb as [->|(input & Hin & ->)]; [done|by apply Hins].
    + destruct (send_committed s now c raw w input perm u Hwf Hin Hperm Hu)
        as (-> & _).
      specialize (Hins input Hin).
      unfold store_after_send. by destruct perm.
  - unfold chatRouter.messages, chatRouter.messages_input, bind, gets, ret, throw.
    destruct (_ && _); cbn; [|done].
    by destruct (checkChannelPermissions _ _ _).
  - unfold chatRouter.delete, chatRouter.checkDeleteMessage, bind, gets, throw.
    destruct (find_message i (db w)) as [m|]; cbn; [|done].
    assert (content_ok (with_messages
              (filter (fun m => m_id m <> i) (messages (db w)))
              (messages_insertId (db w)) (db w))) as Hdel.
    { unfold content_ok. cbn. apply Forall_forall. intros x Hx.
      apply list_elem_of_filter in Hx as [_ Hx].
      by apply (proj1 (Forall_forall _ _) Hok). }
    destruct (decide (m_author_id m = session_user_id s)); cbn; [done|].
    destruct (groups (db w)) as [|g gs]; cbn; [done|].
    by destruct (decide (g_owner_id g = session_user_id s)).
  - unfold chatRouter.type, bind, gets, throw.
    by destruct (find_user _ _).
Qed.

Lemma content_rule_kept_without_update_witness :
  content_ok
    (db (@serve (demo true)
           [Send alice 50 "c1"
              {| s_channelId := "g1"; s_content := "";
                 s_attachment := Some {| up_rest := "image:cat.png";
                                         up_width := None;
                                         up_height := None |};
                 s_reply := None; s_nonce := None |};
            Delete alice 1] demo_world)).
Proof.
  apply (@content_rule_kept_without_update (demo true));
    [repeat constructor|apply demo_db_wf|].
  unfold content_ok. cbn. repeat constructor; cbn; discriminate.
Defined.

Lemma step_ids `{Collaborators} (r : Request) (w : World) :
  messages_wf (db w) -> ids_unique (db w) ->
  ids_unique (db (step r w))
  /\ messages_insertId (db w) <= messages_insertId (db (step r w)).
Proof.
  intros Hwf Hids.
  destruct r as [s now c raw|s raw|s raw|s i|s now c|s now c|s c]; cbn.
  - assert (forall input,
              ids_unique (store_after_inserts s now c input (db w))) as Hins.
    { intros input.
      unfold ids_unique. cbn. rewrite fmap_app. apply NoDup_app.
      split; [done|]. split; [|apply NoDup_singleton].
      intros x Hx Hnew. cbn in Hnew.
      apply list_elem_of_singleton in Hnew as ->.
      apply list_elem_of_fmap in Hx as (m & Hm & Hin').
      apply (proj1 (Forall_forall _ _) Hwf) in Hin'. lia. }
    destruct (send_cases s now c raw w Hwf)
      as [(e & w' & He & _ & Hdb)|(input & perm & u & Hin & _ & _ & _ & Hperm & Hu)].
    + rewrite He. cbn.
      destruct Hdb as [->|(input & _ & ->)];
        [split; [done|lia]|split; [apply Hins|cbn; lia]].
    + destruct (send_committed s now c raw w input perm u Hwf Hin Hperm Hu)
        as (-> & _).
      specialize (Hins input).
      unfold store_after_send. destruct perm; cbn; (split; [done|lia]).
  - unfold chatRouter.messages, chatRouter.messages_input, bind, gets, ret, throw.
    destruct (_ && _); cbn; [|split; [done|lia]].
    destruct (checkChannelPermissions _ _ _); cbn; (split; [done|lia]).
  - unfold chatRouter.update, chatRouter.update_input, bind, throw.
    assert (forall content,
              ids_unique (with_messages
                ((fun m => if decide (update_where (e_messageId raw)
                                        (session_user_id s) (e_channelId raw) m)
                           then set_content content m else m)
                   <$> messages (db w))
                (messages_insertId (db w)) (db w))) as Hupd.
    { intros content. unfold ids_unique. cbn.
      rewrite <- list_fmap_compose.
      erewrite list_fmap_ext; [exact Hids|].
      intros j y _. cbn. by destruct (decide _). }
    destruct (contentSchema _); cbn; [|split; [done|lia]].
    destruct (_ =? 0); cbn; (split; [apply Hupd|lia]).
  - unfold chatRouter.delete, chatRouter.checkDeleteMessage, bind, gets, throw.
    destruct (find_message i (db w)) as [m|]; cbn; [|split; [done|lia]].
    assert (ids_unique (with_messages
              (filter (fun m => m_id m <> i) (messages (db w)))
              (messages_insertId (db w)) (db w))) as Hdel.
    { unfold ids_unique. cbn. eapply sublist_NoDup; [exact Hids|].
      apply fmap_sublist, sublist_filter. }
    destruct (decide (m_author_id m = session_user_id s)); cbn;
      [split; [done|lia]|].
    destruct (groups (db w)) as [|g gs]; cbn; [split; [done|lia]|].
    destruct (decide (g_owner_id g = session_user_id s)); cbn;
      (split; [done|lia]).
  - split; [done|lia].
  - split; [done|lia].
  - unfold chatRouter.type, bind, gets, throw.
    destruct (find_user _ _); cbn; (split; [done|lia]).
Qed.

(** Ids are never shared and never reused.  Over any trace of requests, a
    store whose message ids are pairwise distinct and below the counter
    stays so, and the counter never decreases: an id freed by [delete] is
    not assigned again. *)
Theorem message_ids_stay_unique `{Collaborators} (reqs : list Request)
    (w : World) :
  messages_wf (db w) -> ids_unique (db w) ->
  messages_wf (db (serve reqs w))
  /\ ids_unique (db (serve reqs w))
  /\ messages_insertId (db w) <= messages_insertId (db (serve reqs w)).
Proof.
  revert w. induction reqs as [|r reqs IH]; intros w Hwf Hids.
  - unfold serve. cbn. repeat split; [done..|lia].
  - destruct (step_ids r w Hwf Hids) as [Hids' Hle].
    destruct (IH (step r w) (step_wf r w Hwf) Hids') as (? & ? & ?).
    change (serve (r :: reqs) w) with (serve reqs (step r w)).
    repeat split; [done..|lia].
Qed.

Lemma message_ids_stay_unique_witness :
  ids_unique
    (db (@serve (demo true)
           [Delete carol 2;
            Send carol 50 "c1"
              {| s_channelId := "g2"; s_content := "again";
                 s_attachment := None; s_reply := None; s_nonce := None |}]
           demo_world)).
Proof.
  apply (@message_ids_stay_unique (demo true)); [apply demo_db_wf|].
  apply (bool_decide_unpack _). vm_compute. exact I.
Defined.

(** *** [delete] *)

(** A [delete] that succeeds found the message and wrote this world. *)
Lemma delete_ok_inv (session : Session) (i : Z) (w : World) :
  (chatRouter.delete session i w).2 = Ok tt ->
  exists m,
    find_message i (db w) = Some m
    /\ (chatRouter.delete session i w).1
       = {| db := with_messages
                    (filter (fun m => m_id m <> i) (messages (db w)))
                    (messages_insertId (db w)) (db w);
            redis := redis w;
            ably := ably w ++ [message_deleted [m_channel_id m] i
                                 (m_channel_id m)];
            inworld := inworld w |}.
Proof.
  unfold chatRouter.delete, chatRouter.checkDeleteMessage, bind, gets, throw.
  destruct (find_message i (db w)) as [m|]; cbn; [|done].
  intros Hok. exists m. split; [done|]. revert Hok.
  destruct (decide (m_author_id m = session_user_id session)); cbn; [done|].
  destruct (groups (db w)) as [|g gs]; cbn; [done|].
  by destruct (decide (g_owner_id g = session_user_id session)).
Qed.

Lemma find_message_after_delete (i j : Z) (d : DB) :
  find_message j
    (with_messages (filter (fun m => m_id m <> i) (messages d))
       (messages_insertId d) d)
  = if decide (j = i) then None else find_message j d.
Proof.
  unfold find_message. cbn.
  induction (messages d) as [|m l IH]; [by destruct (decide _)|].
  rewrite (filter_cons (fun m => m_id m <> i)), (filter_cons _ m l).
  destruct (decide (m_id m <> i)) as [Hne|Heq].
  - rewrite filter_cons. destruct (decide (m_id m = j)) as [<-|Hj].
    + by rewrite decide_False.
    + exact IH.
  - apply dec_stable in Heq. rewrite IH.
    destruct (decide (j = i)) as [->|Hji]; [done|].
    by rewrite decide_False by congruence.
Qed.

(** What a [delete] that succeeds leaves behind: the message is gone and
    every other message reads as before; "message deleted" has been
    published to the topic of the channel the message was in; the
    attachment rows, the channels with their last-message pointers, the
    cursors and the id counter are untouched; a channel whose pointer named
    the deleted message keeps naming it. *)
Theorem delete_removes_the_message_only (session : Session) (i : Z)
    (w : World) :
  (chatRouter.delete session i w).2 = Ok tt ->
  let w' := (chatRouter.delete session i w).1 in
  find_message i (db w') = None
  /\ (forall j, j <> i -> find_message j (db w') = find_message j (db w))
  /\ (exists m, find_message i (db w) = Some m
                /\ ably w' = ably w ++ [message_deleted [m_channel_id m] i
                                          (m_channel_id m)])
  /\ attachments (db w') = attachments (db w)
  /\ messageChannels (db w') = messageChannels (db w)
  /\ messages_insertId (db w') = messages_insertId (db w)
  /\ redis w' = redis w
  /\ (forall c, c ∈ messageChannels (db w) ->
        mc_last_message_id c = Some i ->
        c ∈ messageChannels (db w')
        /\ find_message i (db w') = None).
Proof.
  intros Hok. destruct (delete_ok_inv session i w Hok) as (m & Hm & ->).
  cbn [db redis ably]. rewrite find_message_after_delete, decide_True by done.
  split; [done|]. split.
  { intros j Hj. by rewrite find_message_after_delete, decide_False. }
  split; [by exists m|]. repeat split; done.
Qed.

Lemma delete_removes_the_message_only_witness :
  {| mc_id := "g2"; mc_last_message_id := Some 4 |}
    ∈ messageChannels (db (chatRouter.delete alice 4 demo_world).1)
  /\ find_message 4 (db (chatRouter.delete alice 4 demo_world).1) = None.
Proof.
  edestruct (delete_removes_the_message_only alice 4 demo_world)
    as (_ & _ & _ & _ & _ & _ & _ & Hpointer); [reflexivity|].
  apply Hpointer; [|reflexivity].
  cbn. apply elem_of_cons. right. apply elem_of_cons. by left.
Defined.

(** A [messages] call that succeeds answers with the page of the query and
    leaves the world alone. *)
Lemma messages_ok_inv `{Collaborators} (reader : Session) (q : MessagesInput)
    (w w' : World) (page : list HydratedMessage) :
  chatRouter.messages reader q w = (w', Ok page) ->
  w' = w
  /\ 0 <= default 50 (q_count q) <= 50
  /\ page = select_messages (q_channelId q) (default before (q_cursorType q))
              (q_cursor q) (default 50 (q_count q)) (db w).
Proof.
  unfold chatRouter.messages, chatRouter.messages_input, bind, gets, ret, throw.
  destruct (Z.leb_spec 0 (default 50 (q_count q)));
    destruct (Z.leb_spec (default 50 (q_count q)) 50); cbn; try done.
  destruct (checkChannelPermissions _ _ _); cbn; [|done].
  rewrite Z.min_l by done. intros [= <- <-]. repeat split; lia.
Qed.

(** After a [delete] that succeeded, no listing returns the message, and
    the messages that reply to it are listed with a null reply snapshot. *)
Theorem deleted_message_is_not_listed `{Collaborators}
    (session reader : Session) (i : Z) (q : MessagesInput) (w : World)
    (page : list HydratedMessage) :
  (chatRouter.delete session i w).2 = Ok tt ->
  let w' := (chatRouter.delete session i w).1 in
  chatRouter.messages reader q w' = (w', Ok page) ->
  Forall (fun r =>
            m_id (hm_row r) <> i
            /\ (m_reply_id (hm_row r) = Some i ->
                hm_reply_message r = None /\ hm_reply_user r = None)) page.
Proof.
  intros Hok w' Hlist.
  destruct (delete_ok_inv session i w Hok) as (m & Hm & Hw').
  fold w' in Hw'.
  apply messages_ok_inv in Hlist as (_ & _ & ->).
  assert (find_message i (db w') = None) as Hgone.
  { rewrite Hw'. cbn [db].
    by rewrite find_message_after_delete, decide_True. }
  apply Forall_forall. intros r Hr.
  apply select_messages_sound in Hr as (Hin & Hhyd & _). split.
  - rewrite Hw' in Hin. cbn in Hin.
    by apply list_elem_of_filter in Hin as [? _].
  - intros Hreply. rewrite Hhyd. cbn.
    by destruct (reply_of_absent (hm_row r) i (db w') Hreply Hgone)
      as [-> ->].
Qed.

Lemma deleted_message_is_not_listed_witness :
  exists page,
    @chatRouter.messages (demo true) bob
      {| q_channelId := "g2"; q_count := None; q_cursorType := None;
         q_cursor := None |} (chatRouter.delete carol 2 demo_world).1
    = ((chatRouter.delete carol 2 demo_world).1, Ok page)
    /\ Forall (fun r => m_id (hm_row r) <> 2) page.
Proof.
  eexists. split; [vm_compute; reflexivity|].
  eapply Forall_impl.
  - apply (@deleted_message_is_not_listed (demo true) carol bob 2
             {| q_channelId := "g2"; q_count := None; q_cursorType := None;
                q_cursor := None |} demo_world);
      vm_compute; reflexivity.
  - cbn. tauto.
Defined.

(** For an identity that is not the author, [delete] decides on the first
    row of [groups] alone, whatever channel the message is in: it succeeds
    exactly when that row exists and names the identity as owner, and is
    refused with BAD_REQUEST otherwise. *)
Theorem delete_by_other_reads_first_group (session : Session) (i : Z)
    (w : World) (m : Message) :
  find_message i (db w) = Some m ->
  m_author_id m <> session_user_id session ->
  ((chatRouter.delete session i w).2 = Ok tt
   <-> exists g gs, groups (db w) = g :: gs
                    /\ g_owner_id g = session_user_id session)
  /\ ((chatRouter.delete session i w).2 <> Ok tt ->
      chatRouter.delete session i w = (w, Err BAD_REQUEST)).
Proof.
  intros Hm Hauthor.
  unfold chatRouter.delete, chatRouter.checkDeleteMessage, bind, gets, throw.
  rewrite Hm. cbn. rewrite decide_False by done. cbn.
  destruct (groups (db w)) as [|g gs]; cbn.
  - split; [|done]. split; [done|]. by intros (? & ? & ? & _).
  - destruct (decide (g_owner_id g = session_user_id session)) as [Ho|Ho];
      cbn.
    + split; [|done]. split; [|done]. intros _. by exists g, gs.
    + split; [|done]. split; [done|].
      intros (g' & gs' & [= <- <-] & Heq). done.
Qed.

Lemma delete_by_other_reads_first_group_witness :
  (chatRouter.delete alice 3 demo_world).2 = Ok tt
  /\ chatRouter.delete carol 3 demo_world = (demo_world, Err BAD_REQUEST).
Proof.
  split.
  - apply (delete_by_other_reads_first_group alice 3 demo_world
             (message 3 "bob" "re" "g2" (Some 9) 30));
      [reflexivity|discriminate|].
    eexists _, _. split; reflexivity.
  - apply (delete_by_other_reads_first_group carol 3 demo_world
             (message 3 "bob" "re" "g2" (Some 9) 30));
      [reflexivity|discriminate|].
    vm_compute. discriminate.
Defined.

(** *** [messages]: validation, permission, paging *)

(** [messages] never writes: whatever it answers, the world is as before.
    A count outside [0, 50] is answered BAD_REQUEST before the permission
    check is consulted; with a valid count, an error of the permission check
    is passed on as it is; and with a valid count on a channel the caller
    may read the call succeeds. *)
Theorem messages_reads_only `{Collaborators} (reader : Session)
    (q : MessagesInput) (w : World) :
  (chatRouter.messages reader q w).1 = w
  /\ (~ 0 <= default 50 (q_count q) <= 50 ->
      (chatRouter.messages reader q w).2 = Err BAD_REQUEST)
  /\ (forall e, 0 <= default 50 (q_count q) <= 50 ->
        checkChannelPermissions (q_channelId q) reader (db w) = Err e ->
        (chatRouter.messages reader q w).2 = Err e)
  /\ (forall perm, 0 <= default 50 (q_count q) <= 50 ->
        checkChannelPermissions (q_channelId q) reader (db w) = Ok perm ->
        exists page, (chatRouter.messages reader q w).2 = Ok page).
Proof.
  unfold chatRouter.messages, chatRouter.messages_input, bind, gets, ret, throw.
  destruct (Z.leb_spec 0 (default 50 (q_count q)));
    destruct (Z.leb_spec (default 50 (q_count q)) 50); cbn.
  - destruct (checkChannelPermissions _ _ _) as [perm|e] eqn:Hperm; cbn.
    + split; [done|]. split; [lia|]. split; [by intros e _ [=]|].
      intros perm' _ _. by eexists.
    + split; [done|]. split; [lia|]. split; [by intros e' _ [= ->]|].
      by intros perm' _ [=].
  - split; [done|]. split; [done|]. split; [lia|]. intros perm ?. lia.
  - split; [done|]. split; [done|]. split; [lia|]. intros perm ?. lia.
  - split; [done|]. split; [done|]. split; [lia|]. intros perm ?. lia.
Qed.

Lemma messages_reads_only_witness :
  (@chatRouter.messages (demo true) bob
     {| q_channelId := "nowhere"; q_count := Some 51; q_cursorType := None;
        q_cursor := None |} demo_world).2 = Err BAD_REQUEST
  /\ (@chatRouter.messages (demo true) bob
        {| q_channelId := "nowhere"; q_count := Some 5; q_cursorType := None;
           q_cursor := None |} demo_world).2 = Err NOT_FOUND.
Proof.
  split.
  - destruct (@messages_reads_only (demo true) bob
                {| q_channelId := "nowhere"; q_count := Some 51;
                   q_cursorType := None; q_cursor := None |} demo_world)
      as (_ & Hrange & _).
    apply Hrange. cbn. lia.
  - destruct (@messages_reads_only (demo true) bob
                {| q_channelId := "nowhere"; q_count := Some 5;
                   q_cursorType := None; q_cursor := None |} demo_world)
      as (_ & _ & Hperm & _).
    apply Hperm; [cbn; lia|reflexivity].
Defined.

(** Paging backwards with the cursor.  When a page ends with row [r] and
    the next call asks for the rows before the timestamp of [r], every row
    of the second page is strictly older than every row of the first, so no
    message is listed twice; and a message of the first window can be
    missing from both only if it carries the very timestamp of [r]. *)
Theorem next_page_is_strictly_older `{Collaborators} (reader : Session)
    (q1 q2 : MessagesInput) (w : World)
    (page1 page2 : list HydratedMessage) (r : HydratedMessage) :
  chatRouter.messages reader q1 w = (w, Ok page1) ->
  last page1 = Some r ->
  q_channelId q2 = q_channelId q1 ->
  default before (q_cursorType q2) = before ->
  q_cursor q2 = Some (m_timestamp (hm_row r)) ->
  chatRouter.messages reader q2 w = (w, Ok page2) ->
  (forall a b, a ∈ page1 -> b ∈ page2 ->
     m_timestamp (hm_row b) < m_timestamp (hm_row a))
  /\ (forall m, m ∈ messages (db w) -> m_channel_id m = q_channelId q1 ->
        cursor_cond (default before (q_cursorType q1)) (q_cursor q1) m ->
        hydrate (db w) m ∈ page1
        \/ m_timestamp m = m_timestamp (hm_row r)
        \/ (m_timestamp m < m_timestamp (hm_row r)
            /\ (hydrate (db w) m ∈ page2
                \/ (Z.of_nat (length page2) = default 50 (q_count q2)
                    /\ Forall (fun b => m_timestamp m
                                        <= m_timestamp (hm_row b)) page2)))).
Proof.
  intros H1 Hlast Hchannel Htype Hcursor H2.
  apply messages_ok_inv in H1 as (_ & Hc1 & Hp1).
  apply messages_ok_inv in H2 as (_ & Hc2 & Hp2).
  assert (forall a, a ∈ page1 ->
            m_timestamp (hm_row r) <= m_timestamp (hm_row a)) as Hfloor.
  { intros a Ha.
    assert (StronglySorted newer_first page1) as Hsorted
      by (rewrite Hp1; apply select_messages_sorted).
    apply last_Some in Hlast as [init ->].
    apply elem_of_app in Ha as [Ha|Ha].
    - by apply (StronglySorted_app_1_elem_of _ _ _ a r) in Hsorted;
        [|done|apply list_elem_of_singleton].
    - apply list_elem_of_singleton in Ha as ->. lia. }
  split.
  - intros a b Ha Hb. rewrite Hp2 in Hb.
    apply select_messages_sound in Hb as (_ & _ & _ & Hcond).
    rewrite Htype, Hcursor in Hcond. cbn in Hcond.
    specialize (Hfloor a Ha). lia.
  - intros m Hm Hmc Hcond.
    destruct (select_messages_complete (q_channelId q1)
                (default before (q_cursorType q1)) (q_cursor q1)
                (default 50 (q_count q1)) (db w) m) as [Hin|[_ Hfull]];
      [lia|done..|left; by rewrite Hp1|].
    assert (m_timestamp m <= m_timestamp (hm_row r)) as Hle.
    { apply (proj1 (Forall_forall _ _) Hfull).
      rewrite <- Hp1. apply last_Some in Hlast as [init ->].
      apply elem_of_app. right. by apply list_elem_of_singleton. }
    destruct (decide (m_timestamp m = m_timestamp (hm_row r))) as [Heq|Hne];
      [right; by left|].
    right. right. split; [lia|]. rewrite Hp2, Hchannel.
    apply select_messages_complete; [lia|done..|].
    rewrite Htype, Hcursor. cbn. lia.
Qed.

Lemma next_page_is_strictly_older_witness :
  m_timestamp (hm_row (hydrate demo_db (message 2 "carol" "hello" "g2" None 20)))
  < m_timestamp (hm_row (hydrate demo_db (message 3 "bob" "re" "g2" (Some 9) 30))).
Proof.
  edestruct (@next_page_is_strictly_older (demo true) bob
               {| q_channelId := "g2"; q_count := Some 2; q_cursorType := None;
                  q_cursor := None |}
               {| q_channelId := "g2"; q_count := Some 2; q_cursorType := None;
                  q_cursor := Some 30 |} demo_world) as [Holder _];
    [vm_compute; reflexivity..|].
  apply Holder.
  - apply elem_of_cons. right. apply elem_of_cons. by left.
  - apply elem_of_cons. by left.
Defined.

(** *** [type], [read] and [checkout], [insertAttachment] *)

(** [type] publishes, to the topic of the channel, the stored profile of the
    caller and nothing else, writing neither store nor cursor; a caller
    without user row is answered BAD_REQUEST and nothing is published.  The
    channel is not checked: the event goes out for any channel id. *)
Theorem typing_publishes_own_profile (session : Session) (channelId : string)
    (w : World) :
  ((forall u, u ∈ users (db w) -> u_id u <> session_user_id session) ->
   chatRouter.type session channelId w = (w, Err BAD_REQUEST))
  /\ ((chatRouter.type session channelId w).2 = Ok tt ->
      exists u,
        u ∈ users (db w) /\ u_id u = session_user_id session
        /\ ably (chatRouter.type session channelId w).1
           = ably w ++ [typing [channelId]
                          {| id := session_user_id session; name := u_name u;
                             image := u_image u |}]
        /\ db (chatRouter.type session channelId w).1 = db w
        /\ redis (chatRouter.type session channelId w).1 = redis w)
  /\ ((chatRouter.type session channelId w).2 = Ok tt
      \/ chatRouter.type session channelId w = (w, Err BAD_REQUEST)).
Proof.
  unfold chatRouter.type, bind, gets, throw.
  split; [|split].
  - intros Habsent. by rewrite find_user_absent.
  - destruct (find_user (session_user_id session) (db w)) as [u|] eqn:Hu;
      cbn; [|done].
    intros _. exists u. unfold find_user in Hu.
    apply head_Some_elem_of in Hu.
    apply list_elem_of_filter in Hu as [Hid Hu].
    unfold userProfile. rewrite Hid. done.
  - destruct (find_user (session_user_id session) (db w)); cbn; auto.
Qed.

Lemma typing_publishes_own_profile_witness :
  chatRouter.type {| session_user_id := "erin" |} "g1" demo_world
  = (demo_world, Err BAD_REQUEST).
Proof.
  apply typing_publishes_own_profile. intros u Hu. cbn in Hu.
  apply elem_of_cons in Hu as [->|Hu]; [discriminate|].
  apply elem_of_cons in Hu as [->|Hu]; [discriminate|].
  apply elem_of_cons in Hu as [->|Hu]; [discriminate|].
  by apply elem_of_nil in Hu.
Defined.

(** The cursors compose.  [read] and [checkout] always succeed, for any
    channel id, and write nothing but the caller's cursor of that channel:
    a [checkout] after a [read] answers with the time of the [read], a
    second [checkout] with the time of the first, and a [read] of one
    (channel, user) pair does not change what a [checkout] of another pair
    answers. *)
Theorem cursors_compose (session other : Session) (t1 t2 t3 : Z)
    (channelId channelId' : string) (w : World) :
  (chatRouter.read session t1 channelId w).2 = Ok tt
  /\ db (chatRouter.read session t1 channelId w).1 = db w
  /\ ably (chatRouter.read session t1 channelId w).1 = ably w
  /\ (chatRouter.checkout session t2 channelId
        (chatRouter.read session t1 channelId w).1).2 = Ok (Some t1)
  /\ (chatRouter.checkout session t3 channelId
        (chatRouter.checkout session t2 channelId w).1).2 = Ok (Some t2)
  /\ ((channelId', session_user_id other)
      <> (channelId, session_user_id session) ->
      (chatRouter.checkout other t2 channelId'
         (chatRouter.read session t1 channelId w).1).2
      = (chatRouter.checkout other t2 channelId' w).2).
Proof.
  unfold chatRouter.checkout, chatRouter.read, bind, getLastRead, setLastRead,
    ret. cbn. rewrite !lookup_insert_eq.
  repeat split. intros Hne. by rewrite lookup_insert_ne.
Qed.

Lemma cursors_compose_witness :
  (chatRouter.checkout bob 70 "g1"
     (chatRouter.read alice 60 "g1" demo_world).1).2
  = (chatRouter.checkout bob 70 "g1" demo_world).2.
Proof.
  apply (cursors_compose alice bob 60 70 80 "g1" "g1" demo_world).
  discriminate.
Defined.

(** [insertAttachment] passes a null descriptor through without writing.
    For a descriptor it appends one row carrying the generated id and the
    descriptor's width, height and other fields, and answers with that row;
    looking the id up afterwards finds the row when the id was not in use,
    and lookups of other ids are as before. *)
Theorem insertAttachment_binds (createId : string) (w : World) :
  chatRouter.insertAttachment createId None w = (w, Ok None)
  /\ forall up,
       let out := chatRouter.insertAttachment createId (Some up) w in
       exists a,
         out.2 = Ok (Some a)
         /\ a_id a = createId /\ a_rest a = up_rest up
         /\ a_width a = up_width up /\ a_height a = up_height up
         /\ attachments (db out.1) = attachments (db w) ++ [a]
         /\ messages (db out.1) = messages (db w)
         /\ ((forall x, x ∈ attachments (db w) -> a_id x <> createId) ->
             find_attachment createId (db out.1) = Some a)
         /\ (forall j, j <> createId ->
               find_attachment j (db out.1) = find_attachment j (db w)).
Proof.
  split; [done|]. intros up. cbn.
  eexists. repeat split.
  - intros Hfresh. unfold find_attachment. cbn.
    rewrite head_filter_snoc, filter_unmatched, decide_True; [done..|].
    apply Forall_forall. intros x Hx. by apply Hfresh.
  - intros j Hj. unfold find_attachment. cbn.
    rewrite head_filter_snoc. destruct (head _); [done|].
    by rewrite decide_False.
Qed.

Lemma insertAttachment_binds_witness :
  find_attachment "cuid"
    (db (chatRouter.insertAttachment "cuid"
           (Some {| up_rest := "image:cat.png"; up_width := Some 640;
                    up_height := None |}) demo_world).1)
  = Some {| a_id := "cuid"; a_rest := "image:cat.png"; a_width := Some 640;
            a_height := None |}.
Proof.
  destruct (insertAttachment_binds "cuid" demo_world) as [_ Hbind].
  destruct (Hbind {| up_rest := "image:cat.png"; up_width := Some 640;
                     up_height := None |})
    as (a & Hanswer & _ & _ & _ & _ & _ & _ & Hfound & _).
  injection Hanswer as <-. apply Hfound.
  intros x Hx. cbn in Hx. by apply elem_of_nil in Hx.
Defined.

(** *** The fanout of each procedure *)

Local Ltac quiet :=
  exists []; rewrite app_nil_r;
  repeat split; first [done | cbn; lia].

Local Ltac loud :=
  eexists; split; [reflexivity|];
  repeat split; first [done | by repeat constructor | cbn; lia].

(** The publish log only grows, and each procedure publishes its own kind
    of event only.  On a well-formed store, the log after a request is the
    log before followed by the events of the request; a [send] publishes
    "channel opened" and "message sent" (to the topic of its channel) and
    nothing else, an [update] "message updated" for its message and channel,
    a [delete] "message deleted" for its message, [type] "typing" for its
    channel, and [messages], [read] and [checkout] nothing; only a [send]
    calls the notifier. *)
Theorem fanout_by_procedure `{Collaborators} (r : Request) (w : World) :
  messages_wf (db w) ->
  ably (step r w) = ably w ++ published r w
  /\ Forall (event_fits r) (published r w)
  /\ (length (published r w) <= 2)%nat
  /\ (is_send r = false -> inworld (step r w) = inworld w).
Proof.
  intros Hwf.
  assert (exists evs,
            ably (step r w) = ably w ++ evs
            /\ Forall (event_fits r) evs
            /\ (length evs <= 2)%nat
            /\ (is_send r = false -> inworld (step r w) = inworld w))
    as (evs & Hevs & Hfits & Hlen & Hin).
  { destruct r as [s now c raw|s raw|s raw|s i|s now c|s now c|s c];
      cbn [step is_send].
    - destruct (send_cases s now c raw w Hwf)
        as [(e & w' & He & Hframe & _)|(input & perm & u & Hin & Hc & _ & _ & Hperm & Hu)].
      + rewrite He. cbn. rewrite Hframe. cbn. quiet.
      + destruct (send_committed s now c raw w input perm u Hwf Hin Hperm Hu)
          as (_ & Hably & _).
        eexists. split; [exact Hably|]. split; [|split; [|done]].
        * apply Forall_app. split; [|repeat constructor; by rewrite Hc].
          destruct perm as [data|g]; [|done].
          destruct (opens_dm _ _ _); repeat constructor.
        * rewrite length_app. cbn.
          destruct perm as [data|g]; [|cbn; lia].
          destruct (opens_dm _ _ _); cbn; lia.
    - unfold chatRouter.messages, chatRouter.messages_input, bind, gets, ret,
        throw.
      destruct (_ && _); cbn; [|quiet].
      destruct (checkChannelPermissions _ _ _); cbn; quiet.
    - unfold chatRouter.update, chatRouter.update_input, bind, throw.
      destruct (contentSchema _) as [content|]; cbn;
        [|quiet].
      destruct (_ =? 0); cbn; [quiet|].
      loud.
    - unfold chatRouter.delete, chatRouter.checkDeleteMessage, bind, gets,
        throw.
      destruct (find_message i (db w)) as [m|]; cbn;
        [|quiet].
      destruct (decide (m_author_id m = session_user_id s)); cbn;
        [loud|].
      destruct (groups (db w)) as [|g gs]; cbn;
        [quiet|].
      destruct (decide (g_owner_id g = session_user_id s)); cbn;
        [loud
        |quiet].
    - cbn. quiet.
    - cbn. quiet.
    - unfold chatRouter.type, bind, gets, throw.
      destruct (find_user _ _); cbn;
        [loud
        |quiet]. }
  assert (published r w = evs) as ->
    by (unfold published; by rewrite Hevs, drop_app_length).
  done.
Qed.

Lemma fanout_by_procedure_witness :
  Forall (event_fits (Update alice
                        {| e_messageId := 1; e_channelId := "g1";
                           e_content := "hi all" |}))
    (@published (demo true)
       (Update alice {| e_messageId := 1; e_channelId := "g1";
                        e_content := "hi all" |}) demo_world).
Proof.
  apply (@fanout_by_procedure (demo true)). apply demo_db_wf.
Defined.
